(** * The Qserv data loader (tests/QservDataLoader.py)

    A shallow embedding of the class [QservDataLoader]: the chunk registry
    ([workerGetNonEmptyChunkIds]), the empty-chunk manifest
    ([masterCreateEmptyChunksFile]), the metadata table
    ([masterCreateAndFeedMetaTable]), the xrootd export directories
    ([workerCreateXrootdExportDirs]), the partitioner invocation
    ([partitionData]) and the pipeline [loadPartitionedTable], with the
    steps around them: [getDataConfig], [initDatabases],
    [loadPartitionedData] and [workerCreateTable1234567890].

    Python values are modelled as follows: [int] as [Z], [str] as [string],
    lists as [list], a dict used as a map as [gmap], [None] as [option];
    statements that touch the file system, the SQL store or a subprocess
    run in a state-and-exception monad over a [world]. *)

From Stdlib Require Import ZArith Ascii String.
From stdpp Require Import gmap strings list sorting pretty.

Local Open Scope Z_scope.

(** ** Python builtins used by the loader *)

Module Py.

(** The characters written with a backslash in the source: [\n], [\t]
    and the double quote. *)
Definition nl : string := String "010"%char EmptyString.
Definition tab : string := String "009"%char EmptyString.
Definition dquote : string := String "034"%char EmptyString.

(** [str(i)] for an [int]: decimal, with a leading minus sign. *)
Definition str (i : Z) : string := pretty i.

Definition is_digit (c : ascii) : bool :=
  bool_decide (is_Some (Ascii.is_nat c)).

Definition digit_value (c : ascii) : Z :=
  match Ascii.is_nat c with Some d => Z.of_nat d | None => 0 end.

Fixpoint all_digits (s : string) : bool :=
  match s with
  | EmptyString => true
  | String c s' => is_digit c && all_digits s'
  end.

Fixpoint int_acc (acc : Z) (s : string) : Z :=
  match s with
  | EmptyString => acc
  | String c s' => int_acc (10 * acc + digit_value c) s'
  end.

(** [int(s)], restricted to what the loader passes: a non-empty string of
    ASCII digits (group 1 of the chunk-table pattern).  Any other argument
    is [None] (a [ValueError]). *)
Definition int (s : string) : option Z :=
  match s with
  | EmptyString => None
  | _ => if all_digits s then Some (int_acc 0 s) else None
  end.

(** [s.lower()] on ASCII. *)
Definition lower_char (c : ascii) : ascii :=
  let n := nat_of_ascii c in
  if (65 <=? n)%nat && (n <=? 90)%nat then ascii_of_nat (n + 32) else c.

Fixpoint lower (s : string) : string :=
  match s with
  | EmptyString => EmptyString
  | String c s' => String (lower_char c) (lower s')
  end.

(** [fmt % args]: each [%s] takes the next argument (already converted by
    [str]), [%%] is a percent sign.  [None] is a [TypeError] (too few or
    too many arguments) or a conversion the loader never writes.  A single
    non-tuple argument [x] is the list [[x]]. *)
Fixpoint percent (fmt : string) (args : list string) : option string :=
  match fmt with
  | EmptyString => match args with [] => Some EmptyString | _ => None end
  | String "%" (String "s" rest) =>
      match args with
      | a :: args' => String.app a <$> percent rest args'
      | [] => None
      end
  | String "%" (String "%" rest) => String "%" <$> percent rest args
  | String "%" _ => None
  | String c rest => String c <$> percent rest args
  end.

(** [fmt.format(args...)] with the fields [{0}] .. [{9}] the loader writes;
    [None] is a [ValueError] or [IndexError]. *)
Fixpoint format (fmt : string) (args : list string) : option string :=
  match fmt with
  | EmptyString => Some EmptyString
  | String "{" (String d (String "}" rest)) =>
      match Ascii.is_nat d with
      | Some i =>
          match args !! i with
          | Some a => String.app a <$> format rest args
          | None => None
          end
      | None => None
      end
  | String "{" _ => None
  | String "}" _ => None
  | String c rest => String c <$> format rest args
  end.

(** [sorted(l)] on a list of ints. *)
Definition sorted (l : list Z) : list Z := merge_sort Z.le l.

(** [range(lo, hi)] *)
Definition range (lo hi : Z) : list Z := seqZ lo (hi - lo).

(** [sep.join(l)] *)
Fixpoint join (sep : string) (l : list string) : string :=
  match l with
  | [] => ""
  | [x] => x
  | x :: l' => x +:+ sep +:+ join sep l'
  end.

(** [needle in haystack] on strings. *)
Fixpoint starts_with (p s : string) : bool :=
  match p, s with
  | EmptyString, _ => true
  | String a p', String b s' => bool_decide (a = b) && starts_with p' s'
  | String _ _, EmptyString => false
  end.

Fixpoint contains (needle s : string) : bool :=
  starts_with needle s ||
  match s with
  | EmptyString => false
  | String _ s' => contains needle s'
  end.

Fixpoint strip_prefix (p s : string) : option string :=
  match p, s with
  | EmptyString, _ => Some s
  | String a p', String b s' =>
      if bool_decide (a = b) then strip_prefix p' s' else None
  | String _ _, EmptyString => None
  end.

(** The longest prefix of ASCII digits and what follows it. *)
Fixpoint span_digits (s : string) : string * string :=
  match s with
  | String c s' =>
      if is_digit c
      then let '(ds, tl) := span_digits s' in (String c ds, tl)
      else (EmptyString, s)
  | EmptyString => (EmptyString, EmptyString)
  end.

End Py.

(** ** The file system

    A path is the list of its components below the root; [os.path.join] of
    a directory with plain names appends them.  The file system maps the
    paths that exist to a directory or to a regular file with its content. *)

Abbreviation path := (list string).

Inductive node :=
| Dir
| File (content : string).

Inductive errno := ENOENT | EEXIST | ENOTDIR | EISDIR.

Global Instance node_eq_dec : EqDecision node.
Proof. solve_decision. Defined.

Module Fs.

Abbreviation t := (gmap path node).

Definition os_path_join (p : path) (names : list string) : path := p ++ names.

Definition dirname (p : path) : path := removelast p.

Definition os_path_exists (p : path) (fs : t) : bool :=
  bool_decide (is_Some (fs !! p)).

(** [os.mkdir(p)] *)
Definition os_mkdir (p : path) (fs : t) : errno + t :=
  match fs !! p with
  | Some _ => inl EEXIST
  | None =>
      match p with
      | [] => inl ENOENT
      | _ =>
          match fs !! dirname p with
          | Some Dir => inr (<[p := Dir]> fs)
          | Some (File _) => inl ENOTDIR
          | None => inl ENOENT
          end
      end
  end.

(** [os.makedirs(name)]: [head, tail = split(name)]; when [head] does not
    exist it is made first (an [EEXIST] of that recursive call is
    swallowed), then [mkdir(name)].  The argument is the reversed path,
    so that [tail] is its first element. *)
Fixpoint makedirs_rev (rname : list string) (fs : t) : errno + t :=
  match rname with
  | [] => os_mkdir [] fs
  | _ :: rhead =>
      if os_path_exists (reverse rhead) fs then os_mkdir (reverse rname) fs
      else
        match makedirs_rev rhead fs with
        | inr fs1 => os_mkdir (reverse rname) fs1
        | inl EEXIST => os_mkdir (reverse rname) fs
        | inl e => inl e
        end
  end.

Definition os_makedirs (p : path) (fs : t) : errno + t :=
  makedirs_rev (reverse p) fs.

(** [shutil.rmtree(p)]: [p] must be a directory; it goes with everything
    below it. *)
Definition shutil_rmtree (p : path) (fs : t) : errno + t :=
  match fs !! p with
  | Some Dir => inr (filter (λ kv : path * node, ¬ p `prefix_of` kv.1) fs)
  | Some (File _) => inl ENOTDIR
  | None => inl ENOENT
  end.

(** [open(p, 'w')]: creates the file or truncates it. *)
Definition open_w (p : path) (fs : t) : errno + t :=
  match fs !! p with
  | Some Dir => inl EISDIR
  | _ =>
      match p with
      | [] => inl EISDIR
      | _ =>
          match fs !! dirname p with
          | Some Dir => inr (<[p := File ""]> fs)
          | Some (File _) => inl ENOTDIR
          | None => inl ENOENT
          end
      end
  end.

(** [f.write(s)] on the file opened at [p]. *)
Definition append (s : string) (n : node) : node :=
  match n with
  | File c => File (c +:+ s)
  | Dir => Dir
  end.

Definition write (p : path) (s : string) (fs : t) : t := alter (append s) p fs.

(** The file system is a tree: the root is a directory and whatever
    exists lies below directories only. *)
Definition wf (fs : t) : Prop :=
  fs !! [] = Some Dir ∧
  map_Forall (λ k _, Forall (λ i, fs !! take i k = Some Dir) (seq 0 (length k))) fs.

Global Instance wf_dec fs : Decision (wf fs).
Proof. unfold wf. apply _. Defined.

(** The names in directory [d]. *)
Definition child_of (d k : path) : option string :=
  if decide (take (length d) k = d)
  then match drop (length d) k with [n] => Some n | _ => None end
  else None.

Definition listdir (d : path) (fs : t) : gset string :=
  set_omap (child_of d) (dom fs).

(** [p] as the string handed to a subprocess. *)
Definition to_string (p : path) : string :=
  match p with
  | [] => "/"
  | _ => foldr (λ c s, "/" +:+ c +:+ s) "" p
  end.

End Fs.

(** ** The world the loader runs in *)

(** The SQL store: database name, relation name, rows. *)
Abbreviation store := (gmap string (gmap string (list (list string)))).

Definition relation (st : store) (db name : string) : option (list (list string)) :=
  st !! db ≫= λ tables, tables !! name.

Inductive exn :=
| KeyError (key : string)
| TypeError
| IndexError
| ValueError
| OSError (e : errno) (p : path)
| SQLError (msg : string)
| SubprocessFailure (code : Z) (diag : string)
| EOFError.

(** What the loader asks of its collaborators, in the order it asks. *)
Inductive event :=
| EvSql (sql : string)
| EvSqlFile (file : string)
| EvRun (cmd : list string) (code : Z)
| EvPrompt (msg : string).

Record world := World {
  w_fs : Fs.t;
  w_db : store;
  w_trace : list event
}.

Definition M (A : Type) : Type := world → world * (exn + A).

Definition ret {A} (a : A) : M A := λ w, (w, inr a).

Definition raise {A} (e : exn) : M A := λ w, (w, inl e).

Definition bind {A B} (m : M A) (k : A → M B) : M B :=
  λ w, match m w with
       | (w', inr a) => k a w'
       | (w', inl e) => (w', inl e)
       end.

Declare Scope loader_scope.
Delimit Scope loader_scope with loader.
Bind Scope loader_scope with M.

Notation "x ← y ; z" := (bind y (λ x, z))
  (at level 20, y at level 100, z at level 200, only parsing) : loader_scope.
Notation "x ;; z" := (bind x (λ _, z))
  (at level 100, z at level 200, only parsing, right associativity) : loader_scope.

Local Open Scope loader_scope.

(** [for x in l: body(x)] *)
Fixpoint for_each {A} (l : list A) (body : A → M unit) : M unit :=
  match l with
  | [] => ret tt
  | x :: l' => body x ;; for_each l' body
  end.

(** [for x in l: acc = body(acc, x)], for a loop that updates one variable. *)
Fixpoint for_fold {A S} (l : list A) (acc : S) (body : S → A → M S) : M S :=
  match l with
  | [] => ret acc
  | x :: l' => acc' ← body acc x; for_fold l' acc' body
  end.

Definition from_option {A} (e : exn) (o : option A) : M A :=
  match o with
  | Some a => ret a
  | None => raise e
  end.

(** A file-system call: an [errno] becomes an [OSError] on that path. *)
Definition fs_call (op : path → Fs.t → errno + Fs.t) (p : path) : M unit :=
  λ w, match op p (w_fs w) with
       | inr fs' => (World fs' (w_db w) (w_trace w), inr tt)
       | inl e => (w, inl (OSError e p))
       end.

Definition os_path_exists (p : path) : M bool :=
  λ w, (w, inr (Fs.os_path_exists p (w_fs w))).

Definition shutil_rmtree : path → M unit := fs_call Fs.shutil_rmtree.
Definition os_makedirs : path → M unit := fs_call Fs.os_makedirs.
Definition open_w : path → M unit := fs_call Fs.open_w.

Definition file_write (p : path) (s : string) : M unit :=
  λ w, (World (Fs.write p s (w_fs w)) (w_db w) (w_trace w), inr tt).

Definition log_event (e : event) : M unit :=
  λ w, (World (w_fs w) (w_db w) (w_trace w ++ [e]), inr tt).

(** [self.config]: the entries the loader reads. *)
Record Config := {
  qserv_base_dir : path;
  qserv_stripes : string;
  qserv_substripes : string;
  qserv_master : string;
  bin_python : string;
  mysqld_user : string;
  mysqld_pass : string;
  mysqld_port : string
}.

(** The value [getDataConfig] builds: one dict per table, and the string
    under ['out-dirname']. *)
Record table_config := {
  ra_column : Z;
  decl_column : Z;
  chunk_column_id : option Z
}.

Inductive config_value :=
| TableConfig (c : table_config)
| StrValue (s : string).

(** [data_config[table]], to be subscripted by a column key. *)
Definition table_entry (data_config : gmap string config_value) (table : string)
  : M table_config :=
  match data_config !! table with
  | Some (TableConfig c) => ret c
  | Some (StrValue _) => raise TypeError
  | None => raise (KeyError table)
  end.

(** ** Collaborators

    The modules [SQLConnection], [SQLCmd] and [lsst.qserv.admin.commons]
    are imported by the loader and are not among the sources.  The two
    methods of the socket connection are parameters of the loader object;
    what a subprocess does to the file system and the store, its exit code
    and its output, and the line typed at the prompt, are parameters of the
    host. *)

Record SQLConnection := {
  execute : string → store → store * (string + list (list string));
  executeFromFile : string → Fs.t → store → store * (string + unit)
}.

Record Host := {
  spawn : list string → Fs.t → store → Fs.t * store * (Z * string * string);
  stdin_line : option string
}.

(** The attributes of [self].  [_schemaDict] maps a table to the [indexOf]
    of its schema. *)
Record QservDataLoader := {
  config : Config;
  _dbName : string;
  _out_dirname : path;
  _schemaDict : gmap string (string → Z);
  _sqlInterface_sock : SQLConnection
}.

(** [self._sqlInterface['sock'].execute(sql)] *)
Definition sock_execute (self : QservDataLoader) (sql : string)
  : M (list (list string)) :=
  λ w, let '(db', r) := execute (_sqlInterface_sock self) sql (w_db w) in
       let w' := World (w_fs w) db' (w_trace w ++ [EvSql sql]) in
       match r with
       | inr rows => (w', inr rows)
       | inl msg => (w', inl (SQLError msg))
       end.

(** [self._sqlInterface['sock'].executeFromFile(file)] *)
Definition sock_executeFromFile (self : QservDataLoader) (file : string) : M unit :=
  λ w, let '(db', r) :=
         executeFromFile (_sqlInterface_sock self) file (w_fs w) (w_db w) in
       let w' := World (w_fs w) db' (w_trace w ++ [EvSqlFile file]) in
       match r with
       | inr _ => (w', inr tt)
       | inl msg => (w', inl (SQLError msg))
       end.

(** Modelled from the spec: [commons.run_command], which is not among the
    sources.  Section 4.2: the subprocess is run; a nonzero exit fails with
    SubprocessFailure carrying the exit code and the captured diagnostic
    output; otherwise the captured output is returned. *)
Definition commons_run_command (os : Host) (cmd : list string) : M string :=
  λ w, let '(fs', db', (code, out, err)) := spawn os cmd (w_fs w) (w_db w) in
       let w' := World fs' db' (w_trace w ++ [EvRun cmd code]) in
       if code =? 0 then (w', inr out)
       else (w', inl (SubprocessFailure code err)).

(** [raw_input(prompt)] *)
Definition raw_input (os : Host) (prompt : string) : M string :=
  log_event (EvPrompt prompt) ;; from_option EOFError (stdin_line os).

(** ** The loader *)

Definition getDataConfig (self : QservDataLoader) : M (gmap string config_value) :=
  object ← from_option (KeyError "Object") (_schemaDict self !! "Object");
  let object_config :=
    {| ra_column := object "`ra_PS`";
       decl_column := object "`decl_PS`";
       chunk_column_id := Some 227 |} in
  source ← from_option (KeyError "Source") (_schemaDict self !! "Source");
  let source_config :=
    {| ra_column := source "`raObject`";
       decl_column := source "`declObject`";
       chunk_column_id := None |} in
  ret (<["Source" := TableConfig source_config]>
       (<["out-dirname" := StrValue "/data/"]>
        (<["Object" := TableConfig object_config]> ∅))).

(** [re.compile(r"^Object_([0-9]+)$").match(name)]: group 1 of the match.
    The digits are taken greedily, and [$] matches at the end of the string
    or before a newline that ends it. *)
Definition chunk_table_match (name : string) : option string :=
  match Py.strip_prefix "Object_" name with
  | Some rest =>
      let '(digits, tl) := Py.span_digits rest in
      if bool_decide (digits ≠ "" ∧ (tl = "" ∨ tl = Py.nl))
      then Some digits else None
  | None => None
  end.

Definition show_tables_format : string :=
  "SHOW TABLES IN %s LIKE " +:+ Py.dquote +:+ "Object\_%%" +:+ Py.dquote +:+ ";".

(** The body of the loop over [rows], on the list built so far. *)
Definition scan_row (non_empty_chunk_list : list Z) (row : list string)
  : M (list Z) :=
  name ← from_option IndexError (row !! 0%nat);
  match chunk_table_match name with
  | Some chunk_id =>
      i ← from_option ValueError (Py.int chunk_id);
      ret (non_empty_chunk_list ++ [i])
  | None => ret non_empty_chunk_list
  end.

Definition workerGetNonEmptyChunkIds (self : QservDataLoader) : M (list Z) :=
  sql ← from_option TypeError (Py.percent show_tables_format [_dbName self]);
  rows ← sock_execute self sql;
  non_empty_chunk_list ← for_fold rows [] scan_row;
  let chunk_list := Py.sorted non_empty_chunk_list in
  ret chunk_list.

Definition initDatabases (self : QservDataLoader) : M unit :=
  s1 ← from_option TypeError (Py.percent "DROP DATABASE IF EXISTS %s" [_dbName self]);
  s2 ← from_option TypeError (Py.percent "CREATE DATABASE %s" [_dbName self]);
  s3 ← from_option TypeError (Py.percent "GRANT ALL ON %s.* TO '*'@'*'" [_dbName self]);
  s6 ← from_option TypeError (Py.percent "USE %s" [_dbName self]);
  let sql_instructions :=
    [s1; s2; s3; "DROP DATABASE IF EXISTS qservMeta"; "CREATE DATABASE qservMeta"; s6] in
  for_each sql_instructions (λ sql, _ ← sock_execute self sql; ret tt).

Definition masterCreateEmptyChunksFile (self : QservDataLoader)
    (stripes : string) (chunk_id_list : list Z) (empty_chunks_filename : path)
  : M unit :=
  open_w empty_chunks_filename ;;
  let empty_chunks_list := filter (λ i, i ∉ chunk_id_list) (Py.range 0 7201) in
  for_each empty_chunks_list (λ i,
    line ← from_option TypeError (Py.percent ("%s" +:+ Py.nl) [Py.str i]);
    file_write empty_chunks_filename line).

Definition workerCreateXrootdExportDirs (self : QservDataLoader)
    (non_empty_chunk_id_list : list Z) : M unit :=
  let xrootd_run_dir :=
    Fs.os_path_join (qserv_base_dir (config self)) ["xrootd-run"] in
  let xrd_query_dir := Fs.os_path_join xrootd_run_dir ["q"; _dbName self] in
  let xrd_result_dir := Fs.os_path_join xrootd_run_dir ["result"] in
  b ← os_path_exists xrd_query_dir;
  (if b then shutil_rmtree xrd_query_dir else ret tt) ;;
  os_makedirs xrd_query_dir ;;
  for_each non_empty_chunk_id_list (λ chunk_id,
    let xrd_file := Fs.os_path_join xrd_query_dir [Py.str chunk_id] in
    open_w xrd_file) ;;
  b ← os_path_exists xrd_result_dir;
  (if b then shutil_rmtree xrd_result_dir else ret tt) ;;
  os_makedirs xrd_result_dir.

Definition partitionData (os : Host) (self : QservDataLoader)
    (data_config : gmap string config_value) (table : string)
    (data_filename : string) : M path :=
  let partition_scriptname :=
    Fs.os_path_join (qserv_base_dir (config self))
      ["qserv"; "master"; "examples"; "partition.py"] in
  let partition_dirname :=
    Fs.os_path_join (_out_dirname self) [table +:+ "_partition"] in
  b ← os_path_exists partition_dirname;
  (if b then shutil_rmtree partition_dirname else ret tt) ;;
  os_makedirs partition_dirname ;;
  entry ← table_entry data_config table;
  let partition_data_cmd :=
    [ bin_python (config self);
      Fs.to_string partition_scriptname;
      "--output-dir"; Fs.to_string partition_dirname;
      "--chunk-prefix"; table;
      "--theta-column"; Py.str (ra_column entry);
      "--phi-column"; Py.str (decl_column entry);
      "--num-stripes"; qserv_stripes (config self);
      "--num-sub-stripes"; qserv_substripes (config self);
      "--delimiter"; Py.tab ] in
  let partition_data_cmd :=
    match chunk_column_id entry with
    | Some i => partition_data_cmd ++ ["--chunk-column"; Py.str i]
    | None => partition_data_cmd
    end in
  let partition_data_cmd := partition_data_cmd ++ [data_filename] in
  out ← commons_run_command os partition_data_cmd;
  ret partition_dirname.

Definition loadPartitionedData (os : Host) (self : QservDataLoader)
    (partition_dirname : path) (table : string) : M unit :=
  let load_scriptname :=
    Fs.os_path_join (qserv_base_dir (config self))
      ["qserv"; "master"; "examples"; "loader.py"] in
  user ← from_option TypeError (Py.percent "--user=%s" [mysqld_user (config self)]);
  pass ← from_option TypeError (Py.percent "--password=%s" [mysqld_pass (config self)]);
  database ← from_option TypeError (Py.percent "--database=%s" [_dbName self]);
  host ← from_option TypeError
    (Py.percent "%s:%s" [qserv_master (config self); mysqld_port (config self)]);
  target ← from_option TypeError (Py.percent "%s.%s" [_dbName self; table]);
  let load_partitionned_data_cmd :=
    [ bin_python (config self);
      Fs.to_string load_scriptname;
      user; pass; database; host;
      Fs.to_string partition_dirname;
      target ] in
  out ← commons_run_command os load_partitionned_data_cmd;
  ret tt.

Definition workerCreateTable1234567890 (self : QservDataLoader) (table : string)
  : M unit :=
  sql ← from_option ValueError
    (Py.format ("CREATE TABLE {0}.{1}_1234567890 LIKE {1};" +:+ Py.nl)
       [_dbName self; table]);
  _ ← sock_execute self sql;
  ret tt.

Definition masterCreateAndFeedMetaTable (self : QservDataLoader)
    (table : string) (chunk_id_list : list Z) : M unit :=
  let sql := "USE qservMeta;" in
  create ← from_option ValueError
    (Py.format
       ("CREATE TABLE LSST__{0} ({1}Id BIGINT NOT NULL PRIMARY KEY, x_chunkId INT, x_subChunkId INT);"
        +:+ Py.nl)
       [table; Py.lower table]);
  let sql := sql +:+ create in
  insert_sql ← from_option ValueError
    (Py.format
       "INSERT INTO LSST__{1} SELECT {2}Id, chunkId, subChunkId FROM {0}.{1}_%s;"
       [_dbName self; table; Py.lower table]);
  sql ← for_fold chunk_id_list sql (λ sql chunkId,
    tmp ← from_option TypeError (Py.percent insert_sql [Py.str chunkId]);
    ret (sql +:+ Py.nl +:+ tmp));
  _ ← sock_execute self sql;
  ret tt.

Definition loadPartitionedTable (os : Host) (self : QservDataLoader)
    (table : string) (schemaFile : string) (data_filename : string) : M unit :=
  data_config ← getDataConfig self;
  sock_executeFromFile self schemaFile ;;
  partition_dirname ← partitionData os self data_config table data_filename;
  loadPartitionedData os self partition_dirname table ;;
  workerCreateTable1234567890 self table ;;
  chunk_id_list ← workerGetNonEmptyChunkIds self;
  masterCreateAndFeedMetaTable self table chunk_id_list ;;
  workerCreateXrootdExportDirs self chunk_id_list ;;
  let empty_chunks_filename :=
    Fs.os_path_join (qserv_base_dir (config self)) ["etc"; "emptyChunks.txt"] in
  let stripes := qserv_stripes (config self) in
  masterCreateEmptyChunksFile self stripes chunk_id_list empty_chunks_filename ;;
  prompt ← from_option TypeError
    (Py.percent
       ("Qserv mono-node database filled with partitionned '%s' data."
        +:+ Py.nl +:+ "Press Enter to continue...")
       [table]);
  _ ← raw_input os prompt;
  ret tt.

(** ** Vocabulary of the statements *)

(** A manifest: one integer per line, every line ended by a newline, no
    header. *)
Definition manifest_text (l : list Z) : string :=
  foldr (λ i text, Py.str i +:+ Py.nl +:+ text) "" l.

(** The chunk id a row of [SHOW TABLES] stands for, if any. *)
Definition chunk_id_of_row (row : list string) : option Z :=
  (row !! 0%nat ≫= chunk_table_match) ≫= Py.int.

Fixpoint no_percent (s : string) : bool :=
  match s with
  | EmptyString => true
  | String c s' => bool_decide (c ≠ "%"%char) && no_percent s'
  end.

(** The statements of the metadata script. *)
Definition create_meta_statement (table : string) : string :=
  "CREATE TABLE LSST__" +:+ table +:+ " (" +:+ Py.lower table
  +:+ "Id BIGINT NOT NULL PRIMARY KEY, x_chunkId INT, x_subChunkId INT);"
  +:+ Py.nl.

Definition insert_meta_statement (db table : string) (c : Z) : string :=
  "INSERT INTO LSST__" +:+ table +:+ " SELECT " +:+ Py.lower table
  +:+ "Id, chunkId, subChunkId FROM " +:+ db +:+ "." +:+ table +:+ "_"
  +:+ Py.str c +:+ ";".

Definition meta_script (db table : string) (chunk_id_list : list Z) : string :=
  "USE qservMeta;" +:+ create_meta_statement table
  +:+ foldr (λ c script, Py.nl +:+ insert_meta_statement db table c +:+ script)
        "" chunk_id_list.

(** The insert statement before its chunk id is filled in. *)
Definition insert_template (db table : string) : string :=
  "INSERT INTO LSST__" +:+ table +:+ " SELECT " +:+ Py.lower table
  +:+ "Id, chunkId, subChunkId FROM " +:+ db +:+ "." +:+ table +:+ "_%s;".

Definition show_tables_statement (db : string) : string :=
  "SHOW TABLES IN " +:+ db +:+ " LIKE " +:+ Py.dquote +:+ "Object\_%" +:+ Py.dquote +:+ ";".

Definition create_like_statement (db table : string) : string :=
  "CREATE TABLE " +:+ db +:+ "." +:+ table +:+ "_1234567890 LIKE " +:+ table
  +:+ ";" +:+ Py.nl.

Definition partition_dirname (self : QservDataLoader) (table : string) : path :=
  Fs.os_path_join (_out_dirname self) [table +:+ "_partition"].

(** [if os.path.exists(dir): shutil.rmtree(dir)] on the file system. *)
Definition cleared (dir : path) (fs : Fs.t) : errno + Fs.t :=
  if Fs.os_path_exists dir fs then Fs.shutil_rmtree dir fs else inr fs.

(** The command line of the partitioner for a table entry. *)
Definition partition_command (self : QservDataLoader) (table : string)
    (entry : table_config) (data_filename : string) : list string :=
  [ bin_python (config self);
    Fs.to_string (qserv_base_dir (config self)
                  ++ ["qserv"; "master"; "examples"; "partition.py"]);
    "--output-dir"; Fs.to_string (partition_dirname self table);
    "--chunk-prefix"; table;
    "--theta-column"; Py.str (ra_column entry);
    "--phi-column"; Py.str (decl_column entry);
    "--num-stripes"; qserv_stripes (config self);
    "--num-sub-stripes"; qserv_substripes (config self);
    "--delimiter"; Py.tab ]
  ++ match chunk_column_id entry with
     | Some i => ["--chunk-column"; Py.str i]
     | None => []
     end
  ++ [data_filename].

(** The option names of a command line [prog script (--name value)* file]. *)
Fixpoint pair_names (l : list string) : list string :=
  match l with
  | name :: _ :: l' => name :: pair_names l'
  | _ => []
  end.

Definition option_names (cmd : list string) : list string :=
  pair_names (drop 2 cmd).

(** What [masterCreateEmptyChunksFile] writes down. *)
Definition empty_chunks_list (chunk_id_list : list Z) : list Z :=
  filter (λ i, i ∉ chunk_id_list) (Py.range 0 7201).

Definition xrootd_run_dir (self : QservDataLoader) : path :=
  Fs.os_path_join (qserv_base_dir (config self)) ["xrootd-run"].

Definition xrd_query_dir (self : QservDataLoader) : path :=
  Fs.os_path_join (xrootd_run_dir self) ["q"; _dbName self].

Definition xrd_result_dir (self : QservDataLoader) : path :=
  Fs.os_path_join (xrootd_run_dir self) ["result"].

(** The marker of a chunk id in the query directory. *)
Definition xrd_file (self : QservDataLoader) (chunk_id : Z) : path :=
  Fs.os_path_join (xrd_query_dir self) [Py.str chunk_id].

(** The statements of [initDatabases], in the order of the list. *)
Definition init_statements (db : string) : list string :=
  [ "DROP DATABASE IF EXISTS " +:+ db;
    "CREATE DATABASE " +:+ db;
    "GRANT ALL ON " +:+ db +:+ ".* TO '*'@'*'";
    "DROP DATABASE IF EXISTS qservMeta";
    "CREATE DATABASE qservMeta";
    "USE " +:+ db ].

(** The command line of the chunk loader. *)
Definition load_command (self : QservDataLoader) (partition_dirname : path)
    (table : string) : list string :=
  [ bin_python (config self);
    Fs.to_string (qserv_base_dir (config self)
                  ++ ["qserv"; "master"; "examples"; "loader.py"]);
    "--user=" +:+ mysqld_user (config self);
    "--password=" +:+ mysqld_pass (config self);
    "--database=" +:+ _dbName self;
    qserv_master (config self) +:+ ":" +:+ mysqld_port (config self);
    Fs.to_string partition_dirname;
    _dbName self +:+ "." +:+ table ].

(** The manifest of the pipeline, [<base_dir>/etc/emptyChunks.txt]. *)
Definition manifest_path (self : QservDataLoader) : path :=
  Fs.os_path_join (qserv_base_dir (config self)) ["etc"; "emptyChunks.txt"].

(** The prompt at the end of the pipeline. *)
Definition prompt_text (table : string) : string :=
  "Qserv mono-node database filled with partitionned '" +:+ table
  +:+ "' data." +:+ Py.nl +:+ "Press Enter to continue...".

(** The commands the host runs leave the file system a tree. *)
Definition keeps_tree (os : Host) : Prop :=
  ∀ cmd fs st, Fs.wf fs → Fs.wf (spawn os cmd fs st).1.1.

(** A step adds events to the trace, all of them in [P]. *)
Definition emits {A} (P : event → Prop) (m : M A) : Prop :=
  ∀ w w' r, m w = (w', r) →
    ∃ evs, w_trace w' = w_trace w ++ evs ∧ Forall P evs.

(** Not a statement sent to the store through [execute]. *)
Definition no_statement (ev : event) : Prop :=
  match ev with EvSql _ => False | _ => True end.

(** No event at all. *)
Definition no_event (ev : event) : Prop := False.

(** No regular file lies on the way to [p] (nor at [p]). *)
Definition dirs_only (fs : Fs.t) (p : path) : Prop :=
  ∀ k c, k `prefix_of` p → fs !! k ≠ Some (File c).

(** Modelled from the spec: the store's [LIKE], which the sources do not
    contain.  [%] stands for any run of characters, [_] for one character,
    and a backslash makes the next character literal. *)
Fixpoint sql_like (pat : string) : string → bool :=
  match pat with
  | EmptyString => λ s, bool_decide (s = EmptyString)
  | String "%" pat' =>
      fix any (s : string) : bool :=
        sql_like pat' s ||
        match s with
        | EmptyString => false
        | String _ s' => any s'
        end
  | String "_" pat' => λ s,
      match s with
      | String _ s' => sql_like pat' s'
      | EmptyString => false
      end
  | String "\" (String c pat') => λ s,
      match s with
      | String d s' => bool_decide (c = d) && sql_like pat' s'
      | EmptyString => false
      end
  | String c pat' => λ s,
      match s with
      | String d s' => bool_decide (c = d) && sql_like pat' s'
      | EmptyString => false
      end
  end.

(** Modelled from the spec: what the store answers to the registry's
    query (section 4.4, "queries the store for relation names matching the
    per-chunk naming convention").  The statement leaves the store as it
    is and returns one single-column row per relation of the database
    whose name matches the pattern. *)
Definition show_tables_contract (conn : SQLConnection) (db : string) : Prop :=
  ∀ st st' rows,
    execute conn (show_tables_statement db) st = (st', inr rows) →
    st' = st
    ∧ Forall (λ row, length row = 1%nat) rows
    ∧ ∀ name, [name] ∈ rows ↔
        is_Some (relation st db name) ∧ sql_like "Object\_%" name = true.

(** Modelled from the spec: section 6, "create per-chunk tables by cloning
    a template schema".  When the statement succeeds the clone exists, and
    it has no rows. *)
Definition create_like_contract (conn : SQLConnection) (db table : string) : Prop :=
  ∀ st st' rows,
    execute conn (create_like_statement db table) st = (st', inr rows) →
    relation st' db (table +:+ "_1234567890") = Some [].

(** ** A small deployment, used to run the loader on concrete inputs *)

Module Demo.

Definition cfg : Config := {|
  qserv_base_dir := ["opt"; "qserv"];
  qserv_stripes := "85";
  qserv_substripes := "12";
  qserv_master := "127.0.0.1";
  bin_python := "/usr/bin/python";
  mysqld_user := "root";
  mysqld_pass := "changeme";
  mysqld_port := "13306"
|}.

Definition add_relation (db name : string) (rows : list (list string))
    (st : store) : store :=
  <[db := <[name := rows]> (default ∅ (st !! db))]> st.

Definition relation_names (st : store) (db : string) : list string :=
  elements (dom (default ∅ (st !! db))).

(** A store that understands the two statements the registry depends on,
    for the logical tables [tables]; it accepts every other statement
    without any effect on the relations. *)
Definition mysql_execute (db : string) (tables : list string)
    (sql : string) (st : store) : store * (string + list (list string)) :=
  if bool_decide (sql = show_tables_statement db)
  then (st, inr ((λ name, [name])
                 <$> filter (λ name, sql_like "Object\_%" name = true)
                       (relation_names st db)))
  else
    match list_find (λ t, sql = create_like_statement db t) tables with
    | Some (_, t) =>
        match relation st db t, relation st db (t +:+ "_1234567890") with
        | Some _, None => (add_relation db (t +:+ "_1234567890") [] st, inr [])
        | None, _ => (st, inl "Table doesn't exist")
        | Some _, Some _ => (st, inl "Table already exists")
        end
    | None => (st, inr [])
    end.

(** A schema file creates the logical table [Object]. *)
Definition mysql : SQLConnection := {|
  execute := mysql_execute "qservTest" ["Object"; "Source"];
  executeFromFile := λ file fs st, (add_relation "qservTest" "Object" [] st, inr tt)
|}.

Definition schema (ra decl : string) (column : string) : Z :=
  if bool_decide (column = ra) then 2
  else if bool_decide (column = decl) then 4
  else -1.

Definition self : QservDataLoader := {|
  config := cfg;
  _dbName := "qservTest";
  _out_dirname := ["opt"; "qserv"; "tmp"];
  _schemaDict := {[ "Object" := schema "`ra_PS`" "`decl_PS`";
                    "Source" := schema "`raObject`" "`declObject`" ]};
  _sqlInterface_sock := mysql
|}.

(** The loader script creates the chunk relations 3 and 9; the partitioner
    leaves the world as it is.  Both exit with [partitioner_exit] resp. 0. *)
Definition spawn_with (partitioner_exit : Z) (cmd : list string)
    (fs : Fs.t) (st : store) : Fs.t * store * (Z * string * string) :=
  if bool_decide (cmd !! 1%nat = Some "/opt/qserv/qserv/master/examples/loader.py")
  then (fs,
        add_relation "qservTest" "Object_9" [["12"; "9"; "1"]]
          (add_relation "qservTest" "Object_3" [["11"; "3"; "0"]] st),
        (0, "loaded", ""))
  else (fs, st, (partitioner_exit, "", "partition.py: cannot read input")).

Definition host : Host := {|
  spawn := spawn_with 0;
  stdin_line := Some ""
|}.

Definition failing_host : Host := {|
  spawn := spawn_with 2;
  stdin_line := Some ""
|}.

Definition source_entry : table_config :=
  {| ra_column := 2; decl_column := 4; chunk_column_id := None |}.

Definition object_entry : table_config :=
  {| ra_column := 2; decl_column := 4; chunk_column_id := Some 227 |}.

(** What [getDataConfig] returns for [self]. *)
Definition data_config : gmap string config_value :=
  <["Source" := TableConfig source_entry]>
    (<["out-dirname" := StrValue "/data/"]>
     (<["Object" := TableConfig object_entry]> ∅)).

Definition fs0 : Fs.t :=
  {[ [] := Dir;
     ["opt"] := Dir;
     ["opt"; "qserv"] := Dir;
     ["opt"; "qserv"; "etc"] := Dir;
     ["opt"; "qserv"; "tmp"] := Dir ]}.

Definition w0 : world := World fs0 ∅ [].

Definition empty_chunks_filename : path := ["opt"; "qserv"; "etc"; "emptyChunks.txt"].

(** The store after the chunks 3 and 9 were loaded. *)
Definition st_loaded : store :=
  add_relation "qservTest" "Object_9" [["12"; "9"; "1"]]
    (add_relation "qservTest" "Object_3" [["11"; "3"; "0"]]
       (add_relation "qservTest" "Object" [] ∅)).

(** A store whose only chunk relation has no rows. *)
Definition st_empty_chunk : store :=
  add_relation "qservTest" "Object_5" [] (add_relation "qservTest" "Object" [] ∅).

(** A store with two chunk relations whose suffixes read as the same
    integer. *)
Definition st_same_id : store :=
  add_relation "qservTest" "Object_01" [["1"]]
    (add_relation "qservTest" "Object_1" [["2"]] ∅).

End Demo.

(** ** More deployments *)

Module Scenario.

(** A store that lists the relations in the opposite order. *)
Definition mysql_reversed : SQLConnection := {|
  execute := λ sql st,
    let '(st', r) := execute Demo.mysql sql st in
    (st', match r with inr rows => inr (reverse rows) | inl msg => inl msg end);
  executeFromFile := executeFromFile Demo.mysql
|}.

Definition self_reversed : QservDataLoader := {|
  config := Demo.cfg;
  _dbName := "qservTest";
  _out_dirname := ["opt"; "qserv"; "tmp"];
  _schemaDict := _schemaDict Demo.self;
  _sqlInterface_sock := mysql_reversed
|}.

(** A store with the chunk relations of several tables. *)
Definition st_mixed : store :=
  Demo.add_relation "qservTest" "Object_v2_5" [["14"; "5"; "0"]]
    (Demo.add_relation "qservTest" "Source_3" [["21"; "3"; "0"]]
       (Demo.add_relation "qservTest" "Object_3" [["11"; "3"; "0"]]
          (Demo.add_relation "qservTest" "Object" [] ∅))).

(** A file system with a regular file where the result directory should
    be. *)
Definition fs_blocked : Fs.t :=
  <[ ["opt"; "qserv"; "xrootd-run"; "result"] := File "stale" ]>
    (<[ ["opt"; "qserv"; "xrootd-run"] := Dir ]> Demo.fs0).

(** The host of the demo with its standard input closed. *)
Definition closed_host : Host := {|
  spawn := Demo.spawn_with 0;
  stdin_line := None
|}.

(** A second database under the same base directory, and a file system
    on which it has a marker and the result directory a file. *)
Definition other : QservDataLoader := {|
  config := Demo.cfg;
  _dbName := "qservOther";
  _out_dirname := ["opt"; "qserv"; "tmp"];
  _schemaDict := _schemaDict Demo.self;
  _sqlInterface_sock := Demo.mysql
|}.

Definition fs_two_databases : Fs.t :=
  <[ ["opt"; "qserv"; "xrootd-run"; "result"; "r1"] := File "rows" ]>
    (<[ ["opt"; "qserv"; "xrootd-run"; "result"] := Dir ]>
       (<[ ["opt"; "qserv"; "xrootd-run"; "q"; "qservOther"; "5"] := File "" ]>
          (<[ ["opt"; "qserv"; "xrootd-run"; "q"; "qservOther"] := Dir ]>
             (<[ ["opt"; "qserv"; "xrootd-run"; "q"] := Dir ]>
                (<[ ["opt"; "qserv"; "xrootd-run"] := Dir ]> Demo.fs0))))).

End Scenario.


(** * Checks on concrete inputs *)

Example str_examples :
  Py.str 0 = "0" ∧ Py.str 7200 = "7200" ∧ Py.str (-12) = "-12".
Proof. repeat split; reflexivity. Qed.

Example int_examples :
  Py.int "0123" = Some 123 ∧ Py.int "" = None ∧ Py.int "12a" = None
  ∧ Py.int "1234567890" = Some 1234567890.
Proof. repeat split; reflexivity. Qed.

Example percent_examples (x y : string) :
  Py.percent ("%s" +:+ Py.nl) [x] = Some (x +:+ Py.nl)
  ∧ Py.percent "a%%b_%s;" [x] = Some ("a%b_" +:+ x +:+ ";")
  ∧ Py.percent "no conversion" [x] = None
  ∧ Py.percent "%s %s" [x] = None
  ∧ Py.percent "%s:%s" [x; y] = Some (x +:+ ":" +:+ y +:+ "").
Proof. repeat split; reflexivity. Qed.

Example format_examples (x y : string) :
  Py.format "{0}.{1}_7 LIKE {1};" [x; y]
  = Some (x +:+ "." +:+ y +:+ "_7 LIKE " +:+ y +:+ ";").
Proof. reflexivity. Qed.

Example lower_example : Py.lower "Object" = "object".
Proof. reflexivity. Qed.

Example fs_examples :
  let fs : Fs.t := {[ [] := Dir ]} in
  Fs.os_makedirs ["a"; "b"] fs
    = inr ({[ [] := Dir; ["a"] := Dir; ["a"; "b"] := Dir ]} : Fs.t)
  ∧ Fs.os_makedirs [] fs = inl EEXIST
  ∧ Fs.shutil_rmtree ["a"] {[ [] := Dir; ["a"] := Dir; ["a"; "b"] := Dir ]} = inr fs
  ∧ Fs.listdir ["a"] {[ [] := Dir; ["a"] := Dir; ["a"; "b"] := Dir ]} = {[ "b" ]}
  ∧ Fs.to_string ["opt"; "qserv"] = "/opt/qserv".
Proof. repeat split; vm_compute; reflexivity. Qed.

(** * Facts about the builtins *)

Module PyFacts.

Lemma app_cons (x : ascii) (s t : string) : String x s +:+ t = String x (s +:+ t).
Proof. reflexivity. Qed.

Lemma app_nil_l (s : string) : "" +:+ s = s.
Proof. reflexivity. Qed.

Lemma app_nil_r (s : string) : s +:+ "" = s.
Proof. induction s as [|x s IH]; [done|]. by rewrite app_cons, IH. Qed.

Lemma app_assoc (a b c : string) : (a +:+ b) +:+ c = a +:+ b +:+ c.
Proof. induction a as [|x a IH]; [done|]. by rewrite !app_cons, IH. Qed.

Lemma percent_line (x : string) :
  Py.percent ("%s" +:+ Py.nl) [x] = Some (x +:+ Py.nl).
Proof. reflexivity. Qed.

Lemma range_elem lo hi i : i ∈ Py.range lo hi ↔ lo ≤ i < hi.
Proof. unfold Py.range. rewrite elem_of_seqZ. lia. Qed.

Lemma range_sorted lo hi : StronglySorted Z.lt (Py.range lo hi).
Proof.
  unfold Py.range, seqZ. generalize (Z.to_nat (hi - lo)) as n.
  intros n. change 0%nat with (0 + 0)%nat.
  generalize 0%nat at 1 as s. revert lo.
  induction n as [|n IH]; intros lo s; simpl; constructor.
  - replace (S (s + 0)) with (S s + 0)%nat by lia. apply IH.
  - apply Forall_forall. intros x (j & -> & Hj)%list_elem_of_fmap.
    apply elem_of_seq in Hj. lia.
Qed.

Lemma filter_sorted (P : Z → Prop) `{!∀ x, Decision (P x)} (l : list Z) :
  StronglySorted Z.lt l → StronglySorted Z.lt (filter P l).
Proof.
  induction 1 as [|x l Hs IH Hx]; [constructor|].
  rewrite filter_cons. case_decide; [|done]. constructor; [done|].
  apply Forall_forall. intros y [_ Hy]%list_elem_of_filter.
  rewrite Forall_forall in Hx. auto.
Qed.

End PyFacts.

Module PercentFacts.
Import PyFacts.

(** A piece of the format without a percent sign is copied. *)
Lemma percent_app (a r : string) (args : list string) :
  no_percent a = true →
  Py.percent (a +:+ r) args = String.app a <$> Py.percent r args.
Proof.
  induction a as [|c a IH]; intros Ha.
  - rewrite app_nil_l. by destruct (Py.percent r args).
  - simpl in Ha. apply andb_true_iff in Ha as [Hc Ha].
    apply bool_decide_eq_true in Hc. rewrite app_cons.
    assert (Py.percent (String c (a +:+ r)) args
            = String c <$> Py.percent (a +:+ r) args) as ->.
    { destruct c as [[] [] [] [] [] [] [] []]; try reflexivity. done. }
    rewrite IH by done. by destruct (Py.percent r args).
Qed.

Lemma lower_char_percent (c : ascii) : c ≠ "%"%char → Py.lower_char c ≠ "%"%char.
Proof. destruct c as [[] [] [] [] [] [] [] []]; vm_compute; congruence. Qed.

Lemma no_percent_lower (s : string) :
  no_percent s = true → no_percent (Py.lower s) = true.
Proof.
  induction s as [|c s IH]; [done|]. simpl.
  rewrite !andb_true_iff, !bool_decide_eq_true. intros [Hc Hs].
  auto using lower_char_percent.
Qed.

End PercentFacts.

Module PatternFacts.

Lemma span_digits_all (s ds tl : string) :
  Py.span_digits s = (ds, tl) → Py.all_digits ds = true.
Proof.
  revert ds tl. induction s as [|c s IH]; intros ds tl; cbn [Py.span_digits].
  - by intros [= <- <-].
  - destruct (Py.is_digit c) eqn:Hc; [|by intros [= <- <-]].
    destruct (Py.span_digits s) as [ds' tl']. intros [= <- <-].
    cbn [Py.all_digits]. by rewrite Hc, (IH ds' tl').
Qed.

Lemma strip_prefix_starts (p s rest : string) :
  Py.strip_prefix p s = Some rest → s = p +:+ rest.
Proof.
  revert s. induction p as [|a p IH]; intros s; cbn [Py.strip_prefix].
  - by intros [= ->].
  - destruct s as [|b s]; [done|]. case_bool_decide; [|done].
    intros ->%IH. by subst.
Qed.

Lemma like_any (s : string) : sql_like "%" s = true.
Proof.
  induction s as [|c s IH]; [reflexivity|].
  change (sql_like "%" (String c s))
    with (sql_like "" (String c s) || sql_like "%" s).
  by rewrite IH, orb_true_r.
Qed.

Lemma like_chunk_prefix (rest : string) :
  sql_like "Object\_%" ("Object_" +:+ rest) = true.
Proof.
  change (sql_like "Object\_%" ("Object_" +:+ rest)) with (sql_like "%" rest).
  apply like_any.
Qed.

End PatternFacts.

Module DecimalFacts.
Import PyFacts.

Lemma int_acc_shift (acc : Z) (s : string) :
  Py.int_acc acc s = acc * 10 ^ Z.of_nat (String.length s) + Py.int_acc 0 s.
Proof.
  revert acc. induction s as [|c s IH]; intros acc; cbn [Py.int_acc String.length].
  - change (Z.of_nat 0) with 0. lia.
  - rewrite (IH (10 * acc + _)), (IH (10 * 0 + _)).
    rewrite Nat2Z.inj_succ, Z.pow_succ_r by lia. lia.
Qed.

Lemma digit_char (d : N) :
  (d < 10)%N →
  Py.is_digit (pretty_N_char d) = true
  ∧ Py.digit_value (pretty_N_char d) = Z.of_N d.
Proof.
  intros Hd.
  assert (d = 0 ∨ d = 1 ∨ d = 2 ∨ d = 3 ∨ d = 4 ∨ d = 5 ∨ d = 6 ∨ d = 7
          ∨ d = 8 ∨ d = 9)%N as Hcases by lia.
  repeat destruct Hcases as [->|Hcases]; try subst d; by vm_compute.
Qed.

(** The digits [pretty] puts in front of [s] read back as the number. *)
Lemma pretty_go_digits (x : N) (s : string) :
  Py.all_digits s = true →
  Py.all_digits (pretty_N_go x s) = true
  ∧ Py.int_acc 0 (pretty_N_go x s)
    = Z.of_N x * 10 ^ Z.of_nat (String.length s) + Py.int_acc 0 s.
Proof.
  revert s. induction (N.lt_wf_0 x) as [x _ IH]; intros s Hs.
  destruct (decide (x = 0)%N) as [->|Hx].
  { rewrite pretty_N_go_0. split; [done|]. lia. }
  rewrite pretty_N_go_step by lia.
  destruct (digit_char (x `mod` 10)) as [Hd Hv]; [by apply N.mod_lt|].
  destruct (IH (x `div` 10)%N) with (s := String (pretty_N_char (x `mod` 10)) s)
    as [Hall Hint].
  { apply N.div_lt; lia. }
  { cbn [Py.all_digits]. by rewrite Hd, Hs. }
  split; [done|]. rewrite Hint. cbn [String.length Py.int_acc].
  rewrite (int_acc_shift (10 * 0 + _)), Hv.
  rewrite Nat2Z.inj_succ, Z.pow_succ_r by lia.
  rewrite (N.div_mod x 10) at 3 by done. rewrite N2Z.inj_add, N2Z.inj_mul.
  change (Z.of_N 10) with 10. lia.
Qed.

(** [int(str(c)) == c] for a natural number. *)
Lemma int_str (c : Z) : 0 ≤ c → Py.int (Py.str c) = Some c.
Proof.
  intros Hc. unfold Py.str, pretty, pretty_Z.
  destruct c as [|p|p]; [reflexivity| |lia].
  unfold pretty, pretty_positive, pretty, pretty_N.
  rewrite decide_False by done.
  destruct (pretty_go_digits (N.pos p) "") as [Hall Hint]; [done|].
  unfold Py.int. rewrite Hall, Hint.
  destruct (pretty_N_go (N.pos p) "") eqn:E.
  - cbn in Hint. lia.
  - f_equal. cbn. lia.
Qed.

Lemma all_digits_str (c : Z) : 0 ≤ c → Py.all_digits (Py.str c) = true.
Proof.
  intros Hc. pose proof (int_str c Hc) as H. unfold Py.int in H.
  destruct (Py.str c); [done|]. by destruct (Py.all_digits _).
Qed.

Lemma str_nonempty (c : Z) : 0 ≤ c → Py.str c ≠ "".
Proof. intros Hc E. pose proof (int_str c Hc) as H. by rewrite E in H. Qed.

End DecimalFacts.

Module NameFacts.
Import PyFacts PatternFacts DecimalFacts.

Lemma span_digits_split (s ds tl : string) :
  Py.span_digits s = (ds, tl) → s = ds +:+ tl.
Proof.
  revert ds tl. induction s as [|c s IH]; intros ds tl; cbn [Py.span_digits].
  - by intros [= <- <-].
  - destruct (Py.is_digit c); [|by intros [= <- <-]].
    destruct (Py.span_digits s) as [ds' tl']. intros [= <- <-].
    by rewrite app_cons, <-(IH ds' tl').
Qed.

(** Digits followed by nothing, or by something that is not a digit, are
    taken whole. *)
Lemma span_digits_app (ds tl : string) :
  Py.all_digits ds = true →
  match tl with String c _ => Py.is_digit c = false | EmptyString => True end →
  Py.span_digits (ds +:+ tl) = (ds, tl).
Proof.
  intros Hds Htl. induction ds as [|c ds IH].
  - rewrite app_nil_l. destruct tl as [|c tl]; [done|].
    cbn [Py.span_digits]. by rewrite Htl.
  - cbn [Py.all_digits] in Hds. apply andb_true_iff in Hds as [Hc Hds].
    rewrite app_cons. cbn [Py.span_digits]. by rewrite Hc, IH.
Qed.

(** The names the chunk-table pattern matches, and what group 1 is. *)
Lemma chunk_table_match_spec (name digits : string) :
  chunk_table_match name = Some digits ↔
  digits ≠ "" ∧ Py.all_digits digits = true
  ∧ (name = "Object_" +:+ digits ∨ name = "Object_" +:+ digits +:+ Py.nl).
Proof.
  unfold chunk_table_match. split.
  - destruct (Py.strip_prefix _ _) as [rest|] eqn:Hp; [|done].
    apply strip_prefix_starts in Hp as ->.
    destruct (Py.span_digits rest) as [ds tl] eqn:Hspan.
    case_bool_decide as Hd; [|done]. intros [= <-]. destruct Hd as [Hne Htl].
    pose proof (span_digits_all _ _ _ Hspan) as Hall.
    apply span_digits_split in Hspan as ->.
    split; [done|]. split; [done|].
    destruct Htl as [->| ->]; [left; by rewrite app_nil_r|by right].
  - intros (Hne & Hall & [->| ->]).
    + change (Py.strip_prefix "Object_" ("Object_" +:+ digits)) with (Some digits).
      cbv beta iota.
      assert (Py.span_digits digits = (digits, "")) as ->.
      { rewrite <-(app_nil_r digits) at 1. by apply span_digits_app. }
      by rewrite bool_decide_true by auto.
    + change (Py.strip_prefix "Object_" ("Object_" +:+ digits +:+ Py.nl))
        with (Some (digits +:+ Py.nl)).
      cbv beta iota. rewrite span_digits_app by done.
      by rewrite bool_decide_true by auto.
Qed.

(** The relation named after a chunk id stands for that id. *)
Lemma chunk_id_of_name (c : Z) :
  0 ≤ c → chunk_id_of_row ["Object_" +:+ Py.str c] = Some c.
Proof.
  intros Hc. unfold chunk_id_of_row. cbn [lookup list_lookup mbind option_bind].
  assert (chunk_table_match ("Object_" +:+ Py.str c) = Some (Py.str c)) as ->.
  { apply chunk_table_match_spec. auto using str_nonempty, all_digits_str. }
  cbn [mbind option_bind]. by apply int_str.
Qed.

End NameFacts.

Lemma filter_iff_on {A} (P1 P2 : A → Prop)
    `{!∀ x, Decision (P1 x), !∀ x, Decision (P2 x)} (l : list A) :
  (∀ x, x ∈ l → P1 x ↔ P2 x) → filter P1 l = filter P2 l.
Proof.
  induction l as [|a l IH]; intros Hiff; [done|].
  rewrite !filter_cons, IH by (intros; apply Hiff; by right).
  destruct (Hiff a) as [H1 H2]; [by left|]. by repeat case_decide; auto; tauto.
Qed.

Lemma ascending_NoDup (l : list Z) : StronglySorted Z.lt l → NoDup l.
Proof.
  induction 1 as [|x l _ IH Hx]; constructor; [|done].
  intros Hin. rewrite Forall_forall in Hx. specialize (Hx x Hin). lia.
Qed.

(** An ascending list is determined by its elements. *)
Lemma ascending_unique (l1 l2 : list Z) :
  StronglySorted Z.lt l1 → StronglySorted Z.lt l2 →
  (∀ i, i ∈ l1 ↔ i ∈ l2) → l1 = l2.
Proof.
  intros H1 H2 Hel. apply (StronglySorted_unique_strong Z.lt); [lia|done..|].
  apply NoDup_Permutation; auto using ascending_NoDup.
Qed.

Lemma sorted_NoDup_strict (l : list Z) :
  StronglySorted Z.le l → NoDup l → StronglySorted Z.lt l.
Proof.
  induction 1 as [|x l _ IH Hx]; intros Hnd; [constructor|].
  apply NoDup_cons in Hnd as [Hx' Hnd]. constructor; [auto|].
  apply Forall_forall. intros y Hy. rewrite Forall_forall in Hx.
  specialize (Hx y Hy). assert (x ≠ y) by (by intros ->). lia.
Qed.

Lemma elem_of_chunk_ids (rows : list (list string)) (c : Z) :
  c ∈ omap chunk_id_of_row rows ↔
  ∃ row name digits,
    row ∈ rows ∧ row !! 0%nat = Some name
    ∧ chunk_table_match name = Some digits ∧ Py.int digits = Some c.
Proof.
  rewrite list_elem_of_omap. unfold chunk_id_of_row. split.
  - intros (row & Hrow & Hc). exists row.
    destruct (row !! 0%nat) as [name|]; [|done]. cbn in Hc.
    destruct (chunk_table_match name) as [ds|] eqn:Hm; [|done]. cbn in Hc.
    by exists name, ds.
  - intros (row & name & ds & Hrow & Hn & Hm & Hc). exists row.
    split; [done|]. by rewrite Hn; cbn; rewrite Hm.
Qed.

(** * Facts about the file system *)

Module FsFacts.

Implicit Types (fs : Fs.t) (p k : path).

Lemma prefix_snoc p k (x : string) :
  k `prefix_of` p ++ [x] ↔ k `prefix_of` p ∨ k = p ++ [x].
Proof.
  split.
  - intros [s Hs]. destruct s as [|y s _] using rev_ind.
    + right. by rewrite app_nil_r in Hs.
    + left. rewrite app_assoc in Hs. apply app_inj_tail in Hs as [-> _].
      by apply prefix_app_r.
  - intros [H| ->]; [by apply prefix_app_r|done].
Qed.

Lemma prefix_take_length p k : k `prefix_of` p → k = take (length k) p.
Proof. intros [s ->]. by rewrite take_app_length. Qed.

Lemma dirname_snoc p (x : string) : Fs.dirname (p ++ [x]) = p.
Proof. apply removelast_last. Qed.

Lemma snoc_not_nil p (x : string) : p ++ [x] ≠ [].
Proof. by destruct p. Qed.

(** The tree shape, stated on prefixes. *)
Lemma wf_alt fs :
  Fs.wf fs ↔
  fs !! [] = Some Dir ∧
  ∀ k k', is_Some (fs !! k) → k' `prefix_of` k → k' ≠ k → fs !! k' = Some Dir.
Proof.
  unfold Fs.wf. split; intros [Hroot H]; (split; [done|]).
  - intros k k' [x Hx] Hpre Hne.
    specialize (H k x Hx). simpl in H. rewrite Forall_forall in H.
    rewrite (prefix_take_length _ _ Hpre). apply H.
    apply elem_of_seq. split; [lia|]. simpl.
    apply prefix_length in Hpre as Hlen.
    destruct (decide (length k' = length k)) as [Heq|]; [|lia].
    destruct Hne. by apply prefix_length_eq; [|lia].
  - intros k x Hx. simpl. apply Forall_forall. intros i [_ Hi]%elem_of_seq.
    apply (H k); [by eexists|apply prefix_take|].
    intros Heq. apply (f_equal length) in Heq. rewrite length_take in Heq. lia.
Qed.

End FsFacts.

Import FsFacts.

Module FsOps.
Implicit Types (fs : Fs.t) (p k : path).

Lemma rmtree_lookup p fs fs' k :
  Fs.shutil_rmtree p fs = inr fs' →
  fs !! p = Some Dir ∧ fs' !! k = if decide (p `prefix_of` k) then None else fs !! k.
Proof.
  unfold Fs.shutil_rmtree. destruct (fs !! p) as [[|c]|] eqn:Hp; [|done..].
  intros [= <-]. split; [done|]. case_decide as Hpre.
  - apply map_lookup_filter_None. right. intros x _ Hn. by apply Hn.
  - destruct (fs !! k) as [x|] eqn:Hk.
    + by apply map_lookup_filter_Some.
    + apply map_lookup_filter_None. by left.
Qed.

Lemma rmtree_ok p fs :
  fs !! p = Some Dir → ∃ fs', Fs.shutil_rmtree p fs = inr fs'.
Proof. unfold Fs.shutil_rmtree. intros ->. eauto. Qed.

Lemma rmtree_wf p fs fs' :
  p ≠ [] → Fs.wf fs → Fs.shutil_rmtree p fs = inr fs' → Fs.wf fs'.
Proof.
  rewrite !wf_alt. intros Hp [Hroot Hwf] Hrm. split.
  - destruct (rmtree_lookup _ _ _ [] Hrm) as [_ ->].
    rewrite decide_False; [done|]. by intros ->%prefix_nil_inv.
  - intros k k' Hk Hpre Hne.
    destruct (rmtree_lookup _ _ _ k Hrm) as [_ Hk'].
    destruct (rmtree_lookup _ _ _ k' Hrm) as [_ ->].
    rewrite Hk' in Hk. case_decide as Hpk; [by destruct Hk as [? [=]]|].
    rewrite decide_False; [by eapply Hwf|].
    intros Hpk'. apply Hpk. by etrans.
Qed.

Lemma mkdir_snoc p (x : string) fs :
  fs !! p = Some Dir → fs !! (p ++ [x]) = None →
  Fs.os_mkdir (p ++ [x]) fs = inr (<[p ++ [x] := Dir]> fs).
Proof.
  intros Hp Hx. unfold Fs.os_mkdir. rewrite Hx, dirname_snoc, Hp.
  by destruct (p ++ [x]) eqn:E; [destruct (snoc_not_nil _ _ E)|].
Qed.

(** [makedirs] creates the missing directories on the way and only
    those. *)
Lemma makedirs_rev_spec rp fs :
  Fs.wf fs → dirs_only fs (reverse rp) → fs !! reverse rp = None →
  ∃ fs', Fs.makedirs_rev rp fs = inr fs'
    ∧ Fs.wf fs'
    ∧ ∀ k, fs' !! k = if decide (k `prefix_of` reverse rp) then Some Dir else fs !! k.
Proof.
  revert fs. induction rp as [|x rp IH]; intros fs Hwf Hdirs Hnone.
  { apply wf_alt in Hwf as [Hroot _]. rewrite reverse_nil in Hnone. congruence. }
  simpl. rewrite reverse_cons in *.
  assert (Hins : ∀ fs1 : Fs.t, Fs.wf fs1 → fs1 !! reverse rp = Some Dir →
            fs1 !! (reverse rp ++ [x]) = None →
            Fs.wf (<[reverse rp ++ [x] := Dir]> fs1)).
  { intros fs1 [Hroot1 Hwf1]%wf_alt Hd1 Hn1. apply wf_alt. split.
    - rewrite lookup_insert_ne; [done|]. apply snoc_not_nil.
    - intros k k' Hk Hpre Hne.
      destruct (decide (k' = reverse rp ++ [x])) as [->|Hk'].
      { by rewrite lookup_insert_eq. }
      rewrite lookup_insert_ne by done.
      destruct (decide (k = reverse rp ++ [x])) as [->|Hkne].
      + apply prefix_snoc in Hpre as [Hpre|]; [|done].
        destruct (decide (k' = reverse rp)) as [->|]; [done|].
        by apply (Hwf1 (reverse rp)).
      + rewrite lookup_insert_ne in Hk by done. by apply (Hwf1 k). }
  unfold Fs.os_path_exists. case_bool_decide as Hex.
  - destruct Hex as [n Hn]. destruct n as [|c].
    2:{ destruct (Hdirs (reverse rp) c); [by apply prefix_app_r|done]. }
    rewrite mkdir_snoc by done. eexists. split; [done|]. split; [by apply Hins|].
    intros k. destruct (decide (k = reverse rp ++ [x])) as [->|Hk].
    + by rewrite lookup_insert_eq, decide_True.
    + rewrite lookup_insert_ne by done. case_decide as Hpre; [|done].
      apply prefix_snoc in Hpre as [Hpre|]; [|done].
      destruct (decide (k = reverse rp)) as [->|]; [done|].
      apply wf_alt in Hwf as [_ Hwf]. by apply (Hwf (reverse rp)).
  - apply eq_None_not_Some in Hex.
    destruct (IH fs) as (fs1 & -> & Hwf1 & Hl1); [done| |done|].
    { intros k c Hk. apply Hdirs. by apply prefix_app_r. }
    assert (fs1 !! reverse rp = Some Dir) as Hd1.
    { by rewrite Hl1, decide_True. }
    assert (fs1 !! (reverse rp ++ [x]) = None) as Hn1.
    { rewrite Hl1, decide_False; [done|]. apply prefix_snoc_not. }
    rewrite mkdir_snoc by done. eexists. split; [done|]. split; [by apply Hins|].
    intros k. destruct (decide (k = reverse rp ++ [x])) as [->|Hk].
    + by rewrite lookup_insert_eq, decide_True.
    + rewrite lookup_insert_ne, Hl1 by done.
      case_decide as Hpre.
      * rewrite decide_True; [done|by apply prefix_app_r].
      * rewrite decide_False; [done|]. intros [?|?]%prefix_snoc; done.
Qed.

Lemma makedirs_spec p fs :
  Fs.wf fs → dirs_only fs p → fs !! p = None →
  ∃ fs', Fs.os_makedirs p fs = inr fs'
    ∧ Fs.wf fs'
    ∧ ∀ k, fs' !! k = if decide (k `prefix_of` p) then Some Dir else fs !! k.
Proof.
  intros Hwf Hd Hn. unfold Fs.os_makedirs.
  destruct (makedirs_rev_spec (reverse p) fs) as (fs' & ? & ? & Hl);
    rewrite ?reverse_involutive; try done.
  exists fs'. rewrite reverse_involutive in Hl. done.
Qed.

End FsOps.

Import FsOps.

Lemma dirs_only_check (fs : Fs.t) (p : path) :
  forallb (λ i, match fs !! take i p with Some (File _) => false | _ => true end)
    (seq 0 (S (length p))) = true →
  dirs_only fs p.
Proof.
  intros H k c Hk Hf. rewrite forallb_forall in H.
  specialize (H (length k)). rewrite <-(prefix_take_length _ _ Hk), Hf in H.
  discriminate H. apply in_seq. apply prefix_length in Hk. lia.
Qed.

Section fs_steps.
Implicit Types (fs : Fs.t) (p k : path) (w : world).

Lemma open_w_spec p fs :
  p ≠ [] → Fs.wf fs → fs !! Fs.dirname p = Some Dir → fs !! p ≠ Some Dir →
  Fs.open_w p fs = inr (<[p := File ""]> fs) ∧ Fs.wf (<[p := File ""]> fs).
Proof.
  intros Hp Hwf Hd Hnd. split.
  - unfold Fs.open_w. rewrite Hd.
    destruct (fs !! p) as [[|c]|]; [done|by destruct p..].
  - apply wf_alt in Hwf as [Hroot Hwf]. apply wf_alt. split.
    + by rewrite lookup_insert_ne.
    + intros k k' Hk Hpre Hne.
      destruct (decide (k' = p)) as [->|Hk'].
      * destruct Hnd. apply (Hwf k); [|done..].
        rewrite lookup_insert_ne in Hk; [done|]. by intros ->.
      * rewrite lookup_insert_ne by done.
        destruct (decide (k = p)) as [->|Hkp].
        -- destruct p as [|x p _] using rev_ind; [done|].
           rewrite dirname_snoc in Hd.
           apply prefix_snoc in Hpre as [Hpre|]; [|done].
           destruct (decide (k' = p)) as [->|]; [done|]. by apply (Hwf p).
        -- rewrite lookup_insert_ne in Hk by done. by apply (Hwf k).
Qed.

(** The idiom [if os.path.exists(p): shutil.rmtree(p)], and what comes
    after it. *)
Lemma clear_spec p fs db tr :
  p ≠ [] → Fs.wf fs → dirs_only fs p →
  ∃ fs1, Fs.wf fs1 ∧ fs1 !! p = None
    ∧ (∀ k, fs1 !! k = if decide (p `prefix_of` k) then None else fs !! k)
    ∧ ∀ A (K : M A),
        (b ← os_path_exists p; (if b then shutil_rmtree p else ret tt) ;; K)
          (World fs db tr) = K (World fs1 db tr).
Proof.
  intros Hp Hwf Hd. destruct (fs !! p) as [n|] eqn:Hfp.
  - destruct n as [|c]; [|by destruct (Hd p c)].
    destruct (rmtree_ok p fs Hfp) as [fs1 Hrm]. exists fs1.
    split; [by eapply rmtree_wf|].
    split; [by rewrite (proj2 (rmtree_lookup _ _ _ p Hrm)), decide_True|].
    split; [intros k; apply (rmtree_lookup _ _ _ k Hrm)|].
    intros A K. unfold bind, os_path_exists, Fs.os_path_exists. simpl.
    rewrite Hfp, bool_decide_true by eauto.
    unfold shutil_rmtree, fs_call. simpl. by rewrite Hrm.
  - exists fs. split; [done|]. split; [done|]. split.
    + intros k. case_decide as Hpre; [|done].
      apply eq_None_not_Some. intros Hk.
      destruct (decide (p = k)) as [->|]; [by rewrite Hfp in Hk; destruct Hk|].
      apply wf_alt in Hwf as [_ Hwf]. rewrite (Hwf k p) in Hfp; done.
    + intros A K. unfold bind, os_path_exists, Fs.os_path_exists. simpl.
      rewrite Hfp, bool_decide_false; [done|]. by intros [? [=]].
Qed.

(** The same idiom followed by [os.makedirs(p)]: the directory is there
    and empty, the missing directories on the way to it are made. *)
Lemma recreate_spec p fs db tr :
  p ≠ [] → Fs.wf fs → dirs_only fs p →
  ∃ fs', Fs.wf fs'
    ∧ (∀ k, fs' !! k =
            if decide (k `prefix_of` p) then Some Dir
            else if decide (p `prefix_of` k) then None else fs !! k)
    ∧ (b ← os_path_exists p;
       (if b then shutil_rmtree p else ret tt) ;; os_makedirs p) (World fs db tr)
      = (World fs' db tr, inr tt)
    ∧ ∀ A (K : M A),
        (b ← os_path_exists p;
         (if b then shutil_rmtree p else ret tt) ;;
         os_makedirs p ;; K) (World fs db tr)
        = K (World fs' db tr).
Proof.
  intros Hp Hwf Hd.
  destruct (clear_spec p fs db tr) as (fs1 & Hwf1 & Hn1 & Hl1 & Hrun1); [done..|].
  destruct (makedirs_spec p fs1) as (fs' & Hmk & Hwf' & Hl'); [done| |done|].
  { intros k c Hk. rewrite Hl1. case_decide; [done|]. by apply Hd. }
  exists fs'. split; [done|]. split; [|split].
  - intros k. rewrite Hl'. case_decide; [done|]. apply Hl1.
  - rewrite Hrun1. unfold os_makedirs, fs_call. simpl. by rewrite Hmk.
  - intros A K.
    specialize (Hrun1 A (os_makedirs p ;; K)). rewrite Hrun1.
    unfold bind, os_makedirs, fs_call. simpl. by rewrite Hmk.
Qed.

(** The loop that touches one marker per chunk id in directory [d]. *)
Lemma markers_spec d (ids : list Z) fs db tr :
  Fs.wf fs → fs !! d = Some Dir →
  (∀ c, c ∈ ids → fs !! (d ++ [Py.str c]) ≠ Some Dir) →
  ∃ fs', Fs.wf fs'
    ∧ (∀ k, fs' !! k =
            if decide (k ∈ (λ c, d ++ [Py.str c]) <$> ids) then Some (File "")
            else fs !! k)
    ∧ for_each ids (λ chunk_id, open_w (Fs.os_path_join d [Py.str chunk_id]))
        (World fs db tr) = (World fs' db tr, inr tt).
Proof.
  revert fs. induction ids as [|c ids IH]; intros fs Hwf Hd Hfree.
  { exists fs. split; [done|]. split; [|done]. intros k.
    rewrite decide_False; [done|]. simpl. apply not_elem_of_nil. }
  destruct (open_w_spec (d ++ [Py.str c]) fs) as [Hopen Hwf1];
    [apply snoc_not_nil|done|by rewrite dirname_snoc|apply Hfree; left|].
  destruct (IH (<[d ++ [Py.str c] := File ""]> fs)) as (fs' & Hwf' & Hl & Hrun);
    [done|..].
  { rewrite lookup_insert_ne; [done|]. intros E. apply (f_equal length) in E.
    rewrite length_app in E. simpl in E. lia. }
  { intros c' Hc'. destruct (decide (d ++ [Py.str c] = d ++ [Py.str c'])) as [<-|].
    - by rewrite lookup_insert_eq.
    - rewrite lookup_insert_ne by done. apply Hfree. by right. }
  exists fs'. split; [done|]. split.
  - intros k. rewrite Hl. rewrite fmap_cons.
    destruct (decide (k = d ++ [Py.str c])) as [->|Hk].
    + rewrite lookup_insert_eq. rewrite (decide_True (P := _ ∈ _ :: _)) by left.
      by case_decide.
    + rewrite lookup_insert_ne by done.
      case_decide as H1.
      * rewrite decide_True; [done|by right].
      * rewrite decide_False; [done|]. by intros [?|?]%elem_of_cons.
  - simpl. unfold bind at 1. unfold open_w at 1, fs_call, Fs.os_path_join. simpl.
    rewrite Hopen. apply Hrun.
Qed.

Lemma elem_of_listdir d fs (n : string) :
  n ∈ Fs.listdir d fs ↔ is_Some (fs !! (d ++ [n])).
Proof.
  unfold Fs.listdir. rewrite elem_of_set_omap. split.
  - intros (k & Hk%elem_of_dom & Hc). unfold Fs.child_of in Hc.
    case_decide as Ht; [|done].
    destruct (drop (length d) k) as [|n' [|??]] eqn:Hdrop; simplify_eq.
    by rewrite <-(take_drop (length d) k), Ht, Hdrop in Hk.
  - intros Hk. exists (d ++ [n]). split; [by apply elem_of_dom|].
    unfold Fs.child_of. rewrite take_app_length, decide_True by done.
    by rewrite drop_app_length.
Qed.

End fs_steps.

(** ** Runs that return: what each step did *)

Section inversion.
Implicit Types (w : world) (fs : Fs.t) (p k : path).

Lemma bind_inr {A B} (m : M A) (f : A → M B) w w' b :
  bind m f w = (w', inr b) →
  ∃ w1 a, m w = (w1, inr a) ∧ f a w1 = (w', inr b).
Proof.
  unfold bind. destruct (m w) as [w1 [e|a]]; [done|]. eauto.
Qed.

Lemma fs_call_inr op p w w' :
  fs_call op p w = (w', inr tt) →
  ∃ fs', op p (w_fs w) = inr fs' ∧ w' = World fs' (w_db w) (w_trace w).
Proof.
  unfold fs_call. destruct (op p (w_fs w)) as [e|fs']; [done|].
  intros [= <-]. eauto.
Qed.

Lemma mkdir_keeps p fs fs' k :
  Fs.os_mkdir p fs = inr fs' → is_Some (fs !! k) → fs' !! k = fs !! k.
Proof.
  unfold Fs.os_mkdir. destruct (fs !! p) eqn:Hp; [done|].
  destruct p; [done|]. destruct (fs !! Fs.dirname _) as [[|c]|]; [|done..].
  intros [= <-] Hk. rewrite lookup_insert_ne; [done|].
  intros <-. rewrite Hp in Hk. by destruct Hk.
Qed.

Lemma mkdir_grows p fs fs' k :
  Fs.os_mkdir p fs = inr fs' → is_Some (fs !! k) → is_Some (fs' !! k).
Proof. intros H Hk. by rewrite (mkdir_keeps _ _ _ _ H Hk). Qed.

Lemma makedirs_rev_keeps rp fs fs' k :
  Fs.makedirs_rev rp fs = inr fs' → is_Some (fs !! k) → fs' !! k = fs !! k.
Proof.
  revert fs fs'. induction rp as [|x rp IH]; intros fs fs'; cbn [Fs.makedirs_rev].
  - apply mkdir_keeps.
  - destruct (Fs.os_path_exists _ fs); [apply mkdir_keeps|].
    destruct (Fs.makedirs_rev rp fs) as [[]|fs1] eqn:Hrec;
      [done|apply mkdir_keeps|done..|].
    intros Hmk Hk. rewrite (mkdir_keeps _ _ _ k Hmk).
    + by apply (IH fs).
    + rewrite (IH fs fs1) by done. done.
Qed.

Lemma cleared_keeps p fs fs' k :
  cleared p fs = inr fs' → ¬ p `prefix_of` k → fs' !! k = fs !! k.
Proof.
  unfold cleared. destruct (Fs.os_path_exists p fs).
  - intros Hrm Hk. destruct (rmtree_lookup _ _ _ k Hrm) as [_ ->].
    by rewrite decide_False.
  - by intros [= <-].
Qed.

Lemma clear_inr p (K : M unit) w w' :
  (b ← os_path_exists p; (if b then shutil_rmtree p else ret tt) ;; K) w
    = (w', inr tt) →
  ∃ fs0, cleared p (w_fs w) = inr fs0
    ∧ K (World fs0 (w_db w) (w_trace w)) = (w', inr tt).
Proof.
  intros (w1 & b & Hex & H)%bind_inr. unfold os_path_exists in Hex.
  injection Hex as <- <-. unfold cleared.
  destruct (Fs.os_path_exists p (w_fs w)).
  - apply bind_inr in H as (w2 & [] & (fs0 & Hrm & ->)%fs_call_inr & H). eauto.
  - apply bind_inr in H as (w2 & [] & [= <-] & H). destruct w; eauto.
Qed.

(** Clearing a directory and making it again leaves what is outside it
    and exists as it is. *)
Lemma recreate_keeps p fs fs0 fs1 k :
  cleared p fs = inr fs0 → Fs.os_makedirs p fs0 = inr fs1 →
  ¬ p `prefix_of` k → is_Some (fs !! k) → fs1 !! k = fs !! k.
Proof.
  intros Hcl Hmk Hk Hsome. unfold Fs.os_makedirs in Hmk.
  rewrite (makedirs_rev_keeps _ _ _ k Hmk), (cleared_keeps _ _ _ k Hcl); try done.
  by rewrite (cleared_keeps _ _ _ k Hcl).
Qed.

Lemma open_w_inr p fs fs' :
  Fs.open_w p fs = inr fs' → fs' = <[p := File ""]> fs.
Proof. unfold Fs.open_w. repeat case_match; by intros [= <-]. Qed.

(** A run of the marker loop that returns left every marker in place. *)
Lemma markers_inr d (ids : list Z) w w' :
  for_each ids (λ chunk_id, open_w (Fs.os_path_join d [Py.str chunk_id])) w
    = (w', inr tt) →
  w_db w' = w_db w ∧ w_trace w' = w_trace w
  ∧ (∀ c, c ∈ ids → w_fs w' !! (d ++ [Py.str c]) = Some (File ""))
  ∧ ∀ k, w_fs w !! k = Some (File "") → w_fs w' !! k = Some (File "").
Proof.
  revert w. induction ids as [|c ids IH]; intros w; cbn [for_each].
  - intros [= <-]. repeat split; [|done]. by intros c ?%elem_of_nil.
  - intros (w1 & [] & (fs1 & ->%open_w_inr & ->)%fs_call_inr & H)%bind_inr.
    apply IH in H as (-> & -> & Hids & Hkeep). cbn [w_fs w_db w_trace] in *.
    repeat split; [|].
    + intros c' [->|Hc']%elem_of_cons; [|by apply Hids].
      apply Hkeep. apply lookup_insert_eq.
    + intros k Hk. apply Hkeep.
      destruct (decide (Fs.os_path_join d [Py.str c] = k)) as [<-|].
      * by rewrite lookup_insert_eq.
      * by rewrite lookup_insert_ne.
Qed.

(** [makedirs] succeeds only where no regular file is in the way. *)
Lemma makedirs_rev_inr_dirs_only rp fs fs' :
  Fs.wf fs → Fs.makedirs_rev rp fs = inr fs' → dirs_only fs (reverse rp).
Proof.
  intros Hwf. revert fs'. induction rp as [|x rp IH]; intros fs'.
  { cbn [Fs.makedirs_rev]. unfold Fs.os_mkdir. by destruct (fs !! []). }
  cbn [Fs.makedirs_rev]. rewrite reverse_cons.
  assert (∀ fs0 fs1 : Fs.t, Fs.os_mkdir (reverse rp ++ [x]) fs0 = inr fs1 →
            fs0 !! (reverse rp ++ [x]) = None ∧ fs0 !! reverse rp = Some Dir)
    as Hmk.
  { intros fs0 fs1. unfold Fs.os_mkdir.
    destruct (fs0 !! (reverse rp ++ [x])); [done|]. rewrite dirname_snoc.
    destruct (reverse rp ++ [x]); [done|].
    by destruct (fs0 !! reverse rp) as [[|c]|]. }
  apply wf_alt in Hwf as Hwf'. destruct Hwf' as [_ Htree].
  unfold Fs.os_path_exists. case_bool_decide as Hex.
  - intros [Hn Hd]%Hmk k c [Hk| ->]%prefix_snoc; [|by rewrite Hn].
    destruct (decide (k = reverse rp)) as [->|Hne]; [by rewrite Hd|].
    rewrite (Htree (reverse rp) k); by eauto.
  - apply eq_None_not_Some in Hex.
    destruct (Fs.makedirs_rev rp fs) as [[]|fs1] eqn:Hrec; try done.
    + intros [_ Hd]%Hmk. by rewrite Hd in Hex.
    + intros _ k c [Hk| ->]%prefix_snoc; [by eapply IH|].
      intros Hfile. rewrite (Htree (reverse rp ++ [x]) (reverse rp)) in Hex;
        [done|by eexists|by apply prefix_app_r|].
      intros E. apply (f_equal length) in E. rewrite length_app in E.
      simpl in E. lia.
Qed.

Lemma recreate_inr_dirs_only p fs fs0 fs1 :
  Fs.wf fs → cleared p fs = inr fs0 → Fs.os_makedirs p fs0 = inr fs1 →
  dirs_only fs p.
Proof.
  intros Hwf. unfold cleared, Fs.os_path_exists. case_bool_decide as Hex.
  - intros [Hd _]%(rmtree_lookup _ _ _ p) _ k c Hk.
    destruct (decide (k = p)) as [->|Hne]; [by rewrite Hd|].
    apply wf_alt in Hwf as [_ Htree]. rewrite (Htree p k); by eauto.
  - intros [= <-] Hmk. unfold Fs.os_makedirs in Hmk.
    apply makedirs_rev_inr_dirs_only in Hmk; [|done].
    by rewrite reverse_involutive in Hmk.
Qed.

Lemma cleared_wf p fs fs0 :
  p ≠ [] → Fs.wf fs → cleared p fs = inr fs0 → Fs.wf fs0.
Proof.
  intros Hp Hwf. unfold cleared. destruct (Fs.os_path_exists p fs).
  - by apply rmtree_wf.
  - by intros [= <-].
Qed.

(** The marker loop leaves every other path as it is. *)
Lemma markers_inr_other d (ids : list Z) w w' k :
  for_each ids (λ chunk_id, open_w (Fs.os_path_join d [Py.str chunk_id])) w
    = (w', inr tt) →
  (∀ c, c ∈ ids → k ≠ d ++ [Py.str c]) →
  w_fs w' !! k = w_fs w !! k.
Proof.
  revert w. induction ids as [|c ids IH]; intros w; cbn [for_each].
  - by intros [= <-].
  - intros (w1 & [] & (fs1 & ->%open_w_inr & ->)%fs_call_inr & H)%bind_inr Hk.
    rewrite (IH _ H) by (intros; apply Hk; by right). cbn [w_fs].
    rewrite lookup_insert_ne; [done|]. apply not_eq_sym, Hk. by left.
Qed.

End inversion.

(** ** The events of a step *)

Lemma emits_ret {A} P (a : A) : emits P (ret a).
Proof. intros w w' r [= <- <-]. exists []. by rewrite app_nil_r. Qed.

Lemma emits_raise {A} P (e : exn) : emits P (raise (A := A) e).
Proof. intros w w' r [= <- <-]. exists []. by rewrite app_nil_r. Qed.

Lemma emits_from_option {A} P (e : exn) (o : option A) : emits P (from_option e o).
Proof. destruct o; [apply emits_ret|apply emits_raise]. Qed.

Lemma emits_bind {A B} P (m : M A) (f : A → M B) :
  emits P m → (∀ a, emits P (f a)) → emits P (bind m f).
Proof.
  intros Hm Hf w w' r. unfold bind.
  destruct (m w) as [w1 [e|a]] eqn:H1.
  - intros [= <- <-]. by eapply Hm.
  - intros H2. destruct (Hm _ _ _ H1) as (evs1 & E1 & P1).
    destruct (Hf a _ _ _ H2) as (evs2 & E2 & P2).
    exists (evs1 ++ evs2). split; [by rewrite E2, E1, app_assoc|].
    by apply Forall_app.
Qed.

Lemma emits_for_fold {A S} P (l : list A) (acc : S) (body : S → A → M S) :
  (∀ s x, emits P (body s x)) → emits P (for_fold l acc body).
Proof.
  intros Hb. revert acc. induction l as [|x l IH]; intros acc; cbn [for_fold].
  - apply emits_ret.
  - apply emits_bind; auto.
Qed.

Lemma emits_for_each {A} P (l : list A) (body : A → M unit) :
  (∀ x, emits P (body x)) → emits P (for_each l body).
Proof.
  intros Hb. induction l as [|x l IH]; cbn [for_each].
  - apply emits_ret.
  - apply emits_bind; auto.
Qed.

Lemma emits_fs_call P op p : emits P (fs_call op p).
Proof.
  intros w w' r. unfold fs_call. destruct (op p (w_fs w));
    intros [= <- <-]; exists []; by rewrite app_nil_r.
Qed.

Lemma emits_exists P p : emits P (os_path_exists p).
Proof. intros w w' r [= <- <-]. exists []. by rewrite app_nil_r. Qed.

Lemma emits_file_write P p s : emits P (file_write p s).
Proof. intros w w' r [= <- <-]. exists []. by rewrite app_nil_r. Qed.

Lemma emits_log_event (P : event → Prop) e : P e → emits P (log_event e).
Proof. intros He w w' r [= <- <-]. exists [e]. by repeat constructor. Qed.

Lemma emits_sock_execute (P : event → Prop) self sql :
  P (EvSql sql) → emits P (sock_execute self sql).
Proof.
  intros He w w' r. unfold sock_execute.
  destruct (execute _ _ _) as [db' [msg|rows]];
    intros [= <- <-]; exists [EvSql sql]; by repeat constructor.
Qed.

Lemma emits_sock_executeFromFile (P : event → Prop) self file :
  P (EvSqlFile file) → emits P (sock_executeFromFile self file).
Proof.
  intros He w w' r. unfold sock_executeFromFile.
  destruct (executeFromFile _ _ _ _) as [db' [msg|rows]];
    intros [= <- <-]; exists [EvSqlFile file]; by repeat constructor.
Qed.

Lemma emits_run_command (P : event → Prop) os cmd :
  (∀ code, P (EvRun cmd code)) → emits P (commons_run_command os cmd).
Proof.
  intros He w w' r. unfold commons_run_command.
  destruct (spawn _ _ _ _) as [[fs' db'] [[code out] err]].
  destruct (code =? 0); intros [= <- <-]; exists [EvRun cmd code];
    by repeat constructor.
Qed.

Lemma emits_table_entry P dc table : emits P (table_entry dc table).
Proof.
  unfold table_entry. destruct (dc !! table) as [[]|];
    auto using emits_ret, emits_raise.
Qed.

Lemma emits_nothing {A} (m : M A) w w' r :
  emits no_event m → m w = (w', r) → w_trace w' = w_trace w.
Proof.
  intros Hm H. destruct (Hm _ _ _ H) as ([|ev evs] & -> & Hevs).
  - by rewrite app_nil_r.
  - by apply Forall_cons in Hevs as [[] _].
Qed.

Create HintDb trace discriminated.

Global Hint Resolve emits_ret emits_raise emits_from_option
  emits_fs_call emits_exists emits_file_write emits_log_event
  emits_sock_execute emits_sock_executeFromFile emits_run_command
  emits_table_entry : trace.

Global Hint Extern 1 (no_statement _) => exact I : trace.

Ltac emits_steps :=
  repeat first
    [ apply emits_bind; [|intros ?]
    | apply emits_for_each; intros ?
    | apply emits_for_fold; intros ? ?
    | match goal with |- emits _ (if ?b then _ else _) => destruct b end
    | match goal with |- emits _ (match ?o with Some _ => _ | None => _ end) =>
        destruct o end
    | solve [unfold shutil_rmtree, os_makedirs, open_w; auto with trace] ].

Lemma emits_getDataConfig P self : emits P (getDataConfig self).
Proof. unfold getDataConfig. emits_steps. Qed.

Lemma emits_partitionData os self dc table df :
  emits no_statement (partitionData os self dc table df).
Proof. unfold partitionData. emits_steps. Qed.

Lemma emits_loadPartitionedData os self dir table :
  emits no_statement (loadPartitionedData os self dir table).
Proof. unfold loadPartitionedData. emits_steps. Qed.

Lemma emits_scan_rows rows acc : emits no_event (for_fold rows acc scan_row).
Proof. unfold scan_row. emits_steps. Qed.

Lemma emits_export_dirs self ids :
  emits no_event (workerCreateXrootdExportDirs self ids).
Proof. unfold workerCreateXrootdExportDirs. emits_steps. Qed.

Lemma emits_manifest self stripes ids file :
  emits no_event (masterCreateEmptyChunksFile self stripes ids file).
Proof. unfold masterCreateEmptyChunksFile. emits_steps. Qed.

Lemma bind_cases {A B} (m : M A) (f : A → M B) w w' r :
  bind m f w = (w', r) →
  (∃ e, m w = (w', inl e) ∧ r = inl e)
  ∨ ∃ w1 a, m w = (w1, inr a) ∧ f a w1 = (w', r).
Proof.
  unfold bind. destruct (m w) as [w1 [e|a]]; [|by eauto].
  intros [= <- <-]. eauto.
Qed.

(** * The export directories *)

Section export_dirs.
Variable self : QservDataLoader.
Implicit Types (fs : Fs.t) (k : path) (w : world).

Local Abbreviation qdir := (xrd_query_dir self).
Local Abbreviation rdir := (xrd_result_dir self).

Lemma result_not_below_query s : ¬ rdir `prefix_of` qdir ++ s.
Proof.
  unfold xrd_result_dir, xrd_query_dir, Fs.os_path_join.
  rewrite <-app_assoc. intros H%prefix_app_inv. by apply prefix_cons_inv_1 in H.
Qed.

Lemma query_not_below_result s : ¬ qdir `prefix_of` rdir ++ s.
Proof.
  unfold xrd_result_dir, xrd_query_dir, Fs.os_path_join.
  rewrite <-app_assoc. intros H%prefix_app_inv. by apply prefix_cons_inv_1 in H.
Qed.

Lemma above_result k : k `prefix_of` rdir → k ≠ rdir → k `prefix_of` qdir ∧ k ≠ qdir.
Proof.
  unfold xrd_result_dir, xrd_query_dir, Fs.os_path_join.
  intros [H|H]%prefix_snoc Hne; [|done]. split; [by apply prefix_app_r|].
  intros ->. apply prefix_length in H. rewrite !length_app in H. simpl in H. lia.
Qed.

Lemma marker_paths k (ids : list Z) :
  k ∈ (λ c, qdir ++ [Py.str c]) <$> ids ↔ ∃ c, c ∈ ids ∧ k = xrd_file self c.
Proof. rewrite list_elem_of_fmap. unfold xrd_file, Fs.os_path_join. split; intros (c & ? & ?); eauto. Qed.

(** The file system after the export directories were provisioned. *)
Lemma export_dirs_spec (ids : list Z) w :
  Fs.wf (w_fs w) → dirs_only (w_fs w) qdir → dirs_only (w_fs w) rdir →
  ∃ fs', workerCreateXrootdExportDirs self ids w
           = (World fs' (w_db w) (w_trace w), inr tt)
    ∧ Fs.wf fs'
    ∧ ∀ k, fs' !! k =
        if decide (k `prefix_of` rdir) then Some Dir
        else if decide (rdir `prefix_of` k) then None
        else if decide (k ∈ (λ c, qdir ++ [Py.str c]) <$> ids) then Some (File "")
        else if decide (k `prefix_of` qdir) then Some Dir
        else if decide (qdir `prefix_of` k) then None
        else w_fs w !! k.
Proof.
  destruct w as [fs db tr]. simpl. intros Hwf Hq Hr.
  destruct (recreate_spec qdir fs db tr) as (fs1 & Hwf1 & Hl1 & _ & Hrun1);
    [by unfold xrd_query_dir, Fs.os_path_join; destruct (xrootd_run_dir self)|done..|].
  destruct (markers_spec qdir ids fs1 db tr) as (fs2 & Hwf2 & Hl2 & Hrun2); [done|..].
  { by rewrite Hl1, decide_True. }
  { intros c _. rewrite Hl1, decide_False by apply prefix_snoc_not.
    by rewrite decide_True by by apply prefix_app_r. }
  destruct (recreate_spec rdir fs2 db tr) as (fs3 & Hwf3 & Hl3 & Hrun3 & _);
    [by unfold xrd_result_dir, Fs.os_path_join; destruct (xrootd_run_dir self)|done|..].
  { intros k c Hk. rewrite Hl2, Hl1.
    case_decide as Hm.
    { apply marker_paths in Hm as (c' & _ & ->). unfold xrd_file, Fs.os_path_join in Hk.
      destruct (decide (qdir ++ [Py.str c'] = rdir)) as [E|Hne].
      - destruct (result_not_below_query [Py.str c']). by rewrite E.
      - apply above_result in Hk as [Hk _]; [|done]. by apply prefix_snoc_not in Hk. }
    case_decide; [done|]. case_decide as Hqk.
    { destruct (query_not_below_result []). rewrite app_nil_r. by etrans. }
    by apply Hr. }
  exists fs3. split; [|split; [done|]].
  - unfold workerCreateXrootdExportDirs.
    change (Fs.os_path_join (Fs.os_path_join (qserv_base_dir (config self))
              ["xrootd-run"]) ["q"; _dbName self]) with qdir.
    change (Fs.os_path_join (Fs.os_path_join (qserv_base_dir (config self))
              ["xrootd-run"]) ["result"]) with rdir.
    cbv zeta. rewrite Hrun1. unfold bind at 1. unfold Fs.os_path_join in Hrun2.
    unfold Fs.os_path_join at 1. rewrite Hrun2. apply Hrun3.
  - intros k. rewrite Hl3, Hl2, Hl1. done.
Qed.

(** Provisioning returns only where no regular file is in the way of the
    two directories. *)
Lemma export_dirs_inr_dirs_only (ids : list Z) w w' :
  Fs.wf (w_fs w) →
  workerCreateXrootdExportDirs self ids w = (w', inr tt) →
  dirs_only (w_fs w) qdir ∧ dirs_only (w_fs w) rdir.
Proof.
  intros Hwf. unfold workerCreateXrootdExportDirs.
  change (Fs.os_path_join (Fs.os_path_join (qserv_base_dir (config self))
            ["xrootd-run"]) ["q"; _dbName self]) with qdir.
  change (Fs.os_path_join (Fs.os_path_join (qserv_base_dir (config self))
            ["xrootd-run"]) ["result"]) with rdir.
  cbv zeta. intros (fs0 & Hcl & H)%clear_inr.
  apply bind_inr in H as (w1 & [] & (fs1 & Hmk & ->)%fs_call_inr & H).
  apply bind_inr in H as (w2 & [] & Hloop & H).
  apply clear_inr in H as (fs3 & Hcl3 & H).
  cbn [w_fs w_db w_trace] in *.
  pose proof (recreate_inr_dirs_only _ _ _ _ Hwf Hcl Hmk) as Hq.
  split; [done|]. intros k c Hk Hfile.
  destruct (decide (k = rdir)) as [->|Hne].
  2:{ apply above_result in Hk as [Hk _]; [|done]. by apply (Hq k c). }
  assert (w_fs w2 !! rdir = Some (File c)) as Hfile2.
  { rewrite (markers_inr_other _ _ _ _ _ Hloop); cbn [w_fs].
    - rewrite (recreate_keeps _ _ _ _ _ Hcl Hmk); [done| |by eexists].
      rewrite <-(app_nil_r rdir). apply query_not_below_result.
    - intros c' _ E. destruct (result_not_below_query [Py.str c']).
      unfold xrd_file, Fs.os_path_join in E. by rewrite <-E. }
  unfold cleared, Fs.os_path_exists in Hcl3.
  rewrite bool_decide_true in Hcl3 by by eexists.
  unfold Fs.shutil_rmtree in Hcl3. by rewrite Hfile2 in Hcl3.
Qed.

End export_dirs.

Section export_dirs_claims.
Variable self : QservDataLoader.
Implicit Types (fs : Fs.t) (k : path) (w : world).

Local Abbreviation qdir := (xrd_query_dir self).
Local Abbreviation rdir := (xrd_result_dir self).



End export_dirs_claims.

(** * The empty-chunk manifest *)

Section manifest.
Variable self : QservDataLoader.
Implicit Types (fs : Fs.t) (w : world) (S L : list Z).

Lemma alter_lookup_insert {A} (f : A → A) (m : gmap path A) k x :
  m !! k = Some x → alter f k m = <[k := f x]> m.
Proof.
  intros Hk. apply map_eq. intros j. destruct (decide (k = j)) as [->|].
  - by rewrite lookup_alter_eq, lookup_insert_eq, Hk.
  - by rewrite lookup_alter_ne, lookup_insert_ne.
Qed.

(** The loop that writes the lines. *)
Lemma write_lines file (l : list Z) c fs db tr :
  fs !! file = Some (File c) →
  for_each l (λ i,
    line ← from_option TypeError (Py.percent ("%s" +:+ Py.nl) [Py.str i]);
    file_write file line) (World fs db tr)
  = (World (<[file := File (c +:+ manifest_text l)]> fs) db tr, inr tt).
Proof.
  revert c fs. induction l as [|i l IH]; intros c fs Hf; simpl.
  - by rewrite PyFacts.app_nil_r, insert_id.
  - unfold bind at 1. unfold bind at 1. simpl. unfold file_write at 1. simpl.
    unfold Fs.write. rewrite (alter_lookup_insert _ _ _ _ Hf). simpl.
    rewrite (IH (c +:+ Py.str i +:+ Py.nl)) by by rewrite lookup_insert_eq.
    by rewrite insert_insert_eq, !PyFacts.app_assoc.
Qed.

Lemma manifest_run stripes S file w :
  masterCreateEmptyChunksFile self stripes S file w =
  match Fs.open_w file (w_fs w) with
  | inr fs1 =>
      (World (<[file := File (manifest_text (empty_chunks_list S))]> (w_fs w))
         (w_db w) (w_trace w), inr tt)
  | inl e => (w, inl (OSError e file))
  end.
Proof.
  unfold masterCreateEmptyChunksFile, bind at 1, open_w, fs_call.
  destruct (Fs.open_w file (w_fs w)) as [e|fs1] eqn:Hopen; [done|].
  assert (fs1 = <[file := File ""]> (w_fs w)) as ->.
  { unfold Fs.open_w in Hopen. repeat case_match; by simplify_eq. }
  rewrite (write_lines file _ "") by by rewrite lookup_insert_eq.
  by rewrite insert_insert_eq.
Qed.

End manifest.

Section manifest_claims.
Variable self : QservDataLoader.
Implicit Types (fs : Fs.t) (w : world) (S L : list Z).

Lemma empty_chunks_list_elem S i :
  i ∈ empty_chunks_list S ↔ 0 ≤ i < 7201 ∧ i ∉ S.
Proof.
  unfold empty_chunks_list. rewrite list_elem_of_filter, PyFacts.range_elem. tauto.
Qed.

Lemma empty_chunks_list_sorted S : StronglySorted Z.lt (empty_chunks_list S).
Proof. apply PyFacts.filter_sorted, PyFacts.range_sorted. Qed.

Lemma empty_chunks_list_domain S :
  empty_chunks_list S = empty_chunks_list (filter (λ c, 0 ≤ c < 7201) S).
Proof.
  unfold empty_chunks_list. apply filter_iff_on.
  intros i Hi%PyFacts.range_elem. rewrite list_elem_of_filter. tauto.
Qed.

(** C1 as amended.  When the file can be opened,
    [masterCreateEmptyChunksFile] writes, one integer per line, every
    line ended by a newline and nothing before the first, the ascending
    list of the ids of [0, 7201) that are not in the given list: the
    domain is the constant 7201 of the source, whatever [stripes] is.
    When the given ids all lie in [0, 7201), they and the manifest
    together are the domain, and no id is in both. *)
Theorem manifest_is_complement stripes S file w fs1 :
  Fs.open_w file (w_fs w) = inr fs1 →
  ∃ manifest,
    masterCreateEmptyChunksFile self stripes S file w
      = (World (<[file := File (manifest_text manifest)]> (w_fs w))
           (w_db w) (w_trace w), inr tt)
    ∧ StronglySorted Z.lt manifest
    ∧ (∀ i, i ∈ manifest ↔ 0 ≤ i < 7201 ∧ i ∉ S)
    ∧ (∀ l, StronglySorted Z.lt l → (∀ i, i ∈ l ↔ 0 ≤ i < 7201 ∧ i ∉ S) →
            l = manifest)
    ∧ ((∀ c, c ∈ S → 0 ≤ c < 7201) →
       (∀ i, 0 ≤ i < 7201 ↔ i ∈ S ∨ i ∈ manifest)
       ∧ (∀ i, i ∈ S → i ∉ manifest)).
Proof.
  intros Hopen. exists (empty_chunks_list S).
  split; [by rewrite manifest_run, Hopen|].
  split; [apply empty_chunks_list_sorted|].
  split; [apply empty_chunks_list_elem|]. split.
  - intros l Hl Hel. apply ascending_unique;
      [done|apply empty_chunks_list_sorted|].
    intros i. by rewrite Hel, empty_chunks_list_elem.
  - intros HS. split.
    + intros i. rewrite empty_chunks_list_elem.
      destruct (decide (i ∈ S)) as [Hi|Hi]; [|tauto].
      specialize (HS i Hi). tauto.
    + intros i Hi. rewrite empty_chunks_list_elem. tauto.
Qed.

(** C2 as amended.  [masterCreateEmptyChunksFile] reports no error about
    the ids: it fails only when the file cannot be opened, and otherwise
    returns with a manifest written.  Ids outside [0, 7201) are ignored:
    the outcome is that of the given list without them. *)
Theorem manifest_ignores_outside stripes S file w :
  masterCreateEmptyChunksFile self stripes S file w
    = masterCreateEmptyChunksFile self stripes
        (filter (λ c, 0 ≤ c < 7201) S) file w
  ∧ match Fs.open_w file (w_fs w) with
    | inr _ =>
        ∃ w' text,
          masterCreateEmptyChunksFile self stripes S file w = (w', inr tt)
          ∧ w_fs w' !! file = Some (File text)
    | inl e =>
        masterCreateEmptyChunksFile self stripes S file w
          = (w, inl (OSError e file))
    end.
Proof.
  split.
  - by rewrite !manifest_run, <-empty_chunks_list_domain.
  - rewrite manifest_run. destruct (Fs.open_w file (w_fs w)); [done|].
    eexists _, _. split; [done|]. simpl. by rewrite lookup_insert_eq.
Qed.

End manifest_claims.

(** * The metadata table *)

Section meta_table.
Variable self : QservDataLoader.
Implicit Types (w : world) (L : list Z).

Lemma create_meta_format (table : string) :
  Py.format
    ("CREATE TABLE LSST__{0} ({1}Id BIGINT NOT NULL PRIMARY KEY, x_chunkId INT, x_subChunkId INT);"
     +:+ Py.nl) [table; Py.lower table]
  = Some (create_meta_statement table).
Proof. reflexivity. Qed.

Lemma insert_meta_format (db table : string) :
  Py.format
    "INSERT INTO LSST__{1} SELECT {2}Id, chunkId, subChunkId FROM {0}.{1}_%s;"
    [db; table; Py.lower table]
  = Some (insert_template db table).
Proof. reflexivity. Qed.

Lemma insert_meta_percent (db table : string) (c : Z) :
  no_percent db = true → no_percent table = true →
  Py.percent (insert_template db table) [Py.str c]
  = Some (insert_meta_statement db table c).
Proof.
  intros Hdb Ht. unfold insert_template.
  rewrite !PercentFacts.percent_app by auto using PercentFacts.no_percent_lower.
  reflexivity.
Qed.

Lemma feed_loop (db table : string) L sql w :
  no_percent db = true → no_percent table = true →
  for_fold L sql (λ sql chunkId,
    tmp ← from_option TypeError
            (Py.percent (insert_template db table) [Py.str chunkId]);
    ret (sql +:+ Py.nl +:+ tmp)) w
  = (w, inr (sql +:+ foldr (λ c script,
               Py.nl +:+ insert_meta_statement db table c +:+ script) "" L)).
Proof.
  intros Hdb Ht. revert sql.
  induction L as [|c L IH]; intros sql; cbn [for_fold foldr].
  - by rewrite PyFacts.app_nil_r.
  - unfold bind at 1. unfold bind at 1. rewrite insert_meta_percent by done.
    cbn [from_option ret]. rewrite IH. by rewrite !PyFacts.app_assoc.
Qed.

Lemma meta_table_run table L w :
  no_percent (_dbName self) = true → no_percent table = true →
  masterCreateAndFeedMetaTable self table L w
  = (_ ← sock_execute self (meta_script (_dbName self) table L); ret tt) w.
Proof.
  intros Hdb Ht. unfold masterCreateAndFeedMetaTable.
  rewrite create_meta_format, insert_meta_format.
  unfold bind at 1. cbn [from_option ret]. unfold bind at 1.
  cbn [from_option ret]. unfold bind at 1.
  fold (insert_template (_dbName self) table).
  rewrite feed_loop by done. by rewrite PyFacts.app_assoc.
Qed.

(** C3 as amended.  For names without a percent sign,
    [masterCreateAndFeedMetaTable] sends the store one script and does
    nothing else: [USE qservMeta;], the [CREATE TABLE] of [LSST__t] (no
    statement drops or replaces a table that is already there), and then,
    for each chunk id of the list and in its order, one [INSERT INTO
    LSST__t SELECT tId, chunkId, subChunkId FROM db.t_c], [tId] being the
    table name in lower case followed by [Id].  The call fails with the
    store's error when the store rejects the script. *)
Theorem meta_table_script table L w :
  no_percent (_dbName self) = true → no_percent table = true →
  ∃ db' r,
    execute (_sqlInterface_sock self) (meta_script (_dbName self) table L) (w_db w)
      = (db', r)
    ∧ masterCreateAndFeedMetaTable self table L w
      = (World (w_fs w) db'
           (w_trace w ++ [EvSql (meta_script (_dbName self) table L)]),
         match r with inr _ => inr tt | inl msg => inl (SQLError msg) end)
    ∧ meta_script (_dbName self) table L
      = "USE qservMeta;" +:+ create_meta_statement table
        +:+ foldr (λ c script,
              Py.nl +:+ insert_meta_statement (_dbName self) table c +:+ script)
            "" L.
Proof.
  intros Hdb Ht. rewrite meta_table_run by done.
  unfold bind, sock_execute.
  destruct (execute _ _ _) as [db' r]. exists db', r.
  split; [done|]. split; [by destruct r|]. reflexivity.
Qed.

End meta_table.

(** * The chunk registry *)

Section registry.
Variable self : QservDataLoader.
Implicit Types (w : world) (rows : list (list string)).

Local Abbreviation db := (_dbName self).
Local Abbreviation conn := (_sqlInterface_sock self).

Lemma chunk_table_match_int (name digits : string) :
  chunk_table_match name = Some digits → ∃ c, Py.int digits = Some c.
Proof.
  unfold chunk_table_match. destruct (Py.strip_prefix _ _) as [rest|]; [|done].
  destruct (Py.span_digits rest) as [ds tl] eqn:Hspan.
  case_bool_decide as Hd; [|done]. intros [= <-]. destruct Hd as [Hne _].
  apply PatternFacts.span_digits_all in Hspan. unfold Py.int.
  destruct ds; [done|]. rewrite Hspan. eauto.
Qed.

Lemma chunk_table_match_like (name digits : string) :
  chunk_table_match name = Some digits → sql_like "Object\_%" name = true.
Proof.
  unfold chunk_table_match.
  destruct (Py.strip_prefix _ _) as [rest|] eqn:Hp; [|done]. intros _.
  apply PatternFacts.strip_prefix_starts in Hp as ->. apply PatternFacts.like_chunk_prefix.
Qed.

Lemma scan_row_run (acc : list Z) (row : list string) w :
  row ≠ [] →
  scan_row acc row w
  = (w, inr (acc ++ match chunk_id_of_row row with Some c => [c] | None => [] end)).
Proof.
  destruct row as [|name row]; [done|]. intros _.
  unfold scan_row, chunk_id_of_row. cbn [lookup list_lookup from_option].
  unfold bind at 1. cbn [ret mbind option_bind].
  destruct (chunk_table_match name) as [ds|] eqn:Hm; cbn [mbind option_bind].
  - destruct (chunk_table_match_int _ _ Hm) as [c ->]. reflexivity.
  - by rewrite app_nil_r.
Qed.

Lemma scan_rows_run rows (acc : list Z) w :
  Forall (λ row, row ≠ []) rows →
  for_fold rows acc scan_row w = (w, inr (acc ++ omap chunk_id_of_row rows)).
Proof.
  intros Hrows. revert acc. induction Hrows as [|row rows Hrow _ IH]; intros acc.
  - cbn [for_fold omap list_omap]. by rewrite app_nil_r.
  - cbn [for_fold]. unfold bind at 1. rewrite scan_row_run by done.
    rewrite IH. cbn [omap list_omap].
    destruct (chunk_id_of_row row); by rewrite <-?app_assoc, ?app_nil_r.
Qed.

Lemma registry_run w st' rows :
  execute (_sqlInterface_sock self) (show_tables_statement (_dbName self)) (w_db w)
    = (st', inr rows) →
  Forall (λ row, row ≠ []) rows →
  workerGetNonEmptyChunkIds self w
  = (World (w_fs w) st'
       (w_trace w ++ [EvSql (show_tables_statement (_dbName self))]),
     inr (Py.sorted (omap chunk_id_of_row rows))).
Proof.
  intros Hex Hrows. unfold workerGetNonEmptyChunkIds.
  change (Py.percent show_tables_format [_dbName self])
    with (Some (show_tables_statement (_dbName self))).
  unfold bind at 1. cbn [from_option ret]. unfold bind at 1.
  unfold sock_execute at 1. rewrite Hex. unfold bind at 1.
  by rewrite scan_rows_run.
Qed.

Lemma sock_execute_inr sql w w' rows :
  sock_execute self sql w = (w', inr rows) →
  ∃ db', execute conn sql (w_db w) = (db', inr rows)
    ∧ w' = World (w_fs w) db' (w_trace w ++ [EvSql sql]).
Proof.
  unfold sock_execute. destruct (execute _ _ _) as [db' [msg|rows']]; [done|].
  intros [= <- <-]. eauto.
Qed.

(** Under the contract, the registry reports the relations by name. *)
Lemma registry_members w w' ids :
  show_tables_contract conn db →
  workerGetNonEmptyChunkIds self w = (w', inr ids) →
  w' = World (w_fs w) (w_db w) (w_trace w ++ [EvSql (show_tables_statement db)])
  ∧ ∀ c, c ∈ ids ↔
      ∃ name digits,
        is_Some (relation (w_db w) db name)
        ∧ chunk_table_match name = Some digits ∧ Py.int digits = Some c.
Proof.
  intros Hshow Hrun.
  assert (∃ st' rows, execute conn (show_tables_statement db) (w_db w)
                        = (st', inr rows)) as (st' & rows & Hex).
  { unfold workerGetNonEmptyChunkIds in Hrun.
    change (Py.percent show_tables_format [_dbName self])
      with (Some (show_tables_statement db)) in Hrun.
    apply bind_inr in Hrun as (w1 & sql & [= <- <-] & Hrun).
    apply bind_inr in Hrun as (w2 & rows & (st' & Hex & _)%sock_execute_inr & _).
    eauto. }
  destruct (Hshow _ _ _ Hex) as (-> & Hlen & Hrows).
  assert (Forall (λ row, row ≠ []) rows) as Hne.
  { eapply Forall_impl; [exact Hlen|]. by intros []. }
  rewrite (registry_run w _ rows Hex Hne) in Hrun.
  injection Hrun as <- <-. split; [done|]. intros c.
  unfold Py.sorted. rewrite merge_sort_Permutation, elem_of_chunk_ids. split.
  - intros (row & name & ds & Hrow & Hn & Hm & Hc). exists name, ds.
    rewrite Forall_forall in Hlen. specialize (Hlen row Hrow).
    destruct row as [|n [|??]]; simplify_eq/=.
    apply Hrows in Hrow as [? _]. done.
  - intros (name & ds & Hrel & Hm & Hc). exists [name], name, ds.
    split; [|done]. apply Hrows. eauto using chunk_table_match_like.
Qed.

End registry.

Section registry_claims.
Variable self : QservDataLoader.
Implicit Types (w : world) (rows : list (list string)).


(** C5 as amended.  Under the store's contract for [SHOW TABLES], the
    list [workerGetNonEmptyChunkIds] computes contains a chunk id exactly
    when a relation named [Object_<digits>] with that integer suffix
    exists in the database, whether it holds rows or not; in particular it
    contains every chunk id whose relation exists. *)
Theorem registry_by_existence w st' rows :
  show_tables_contract (_sqlInterface_sock self) (_dbName self) →
  execute (_sqlInterface_sock self) (show_tables_statement (_dbName self)) (w_db w)
    = (st', inr rows) →
  ∃ ids,
    workerGetNonEmptyChunkIds self w
      = (World (w_fs w) (w_db w)
           (w_trace w ++ [EvSql (show_tables_statement (_dbName self))]),
         inr ids)
    ∧ (∀ c, c ∈ ids ↔
         ∃ name digits,
           is_Some (relation (w_db w) (_dbName self) name)
           ∧ chunk_table_match name = Some digits ∧ Py.int digits = Some c)
    ∧ ∀ c, 0 ≤ c →
        is_Some (relation (w_db w) (_dbName self) ("Object_" +:+ Py.str c)) →
        c ∈ ids.
Proof.
  intros Hshow Hex. destruct (Hshow _ _ _ Hex) as (-> & Hlen & _).
  assert (Forall (λ row, row ≠ []) rows) as Hne.
  { eapply Forall_impl; [exact Hlen|]. by intros []. }
  pose proof (registry_run self w _ rows Hex Hne) as Hrun.
  eexists. split; [exact Hrun|].
  destruct (registry_members self _ _ _ Hshow Hrun) as [_ Hids].
  split; [done|]. intros c Hc Hrel. apply Hids.
  exists ("Object_" +:+ Py.str c), (Py.str c). split; [done|].
  split; [|by apply DecimalFacts.int_str].
  apply NameFacts.chunk_table_match_spec.
  auto using DecimalFacts.str_nonempty, DecimalFacts.all_digits_str.
Qed.

End registry_claims.

(** * The partitioner *)

(** The steps of [partitionData] after the directory was cleared. *)
Ltac after_clear :=
  unfold bind at 1; unfold os_makedirs, fs_call; cbn [w_fs w_db w_trace];
  destruct (Fs.os_makedirs _ _) as [?|?]; [done|];
  unfold bind at 1; unfold table_entry;
  match goal with H : _ !! _ = Some (TableConfig _) |- _ => rewrite H end;
  cbn [ret]; unfold bind at 1; unfold commons_run_command;
  cbn [w_fs w_db w_trace];
  unfold partition_command, partition_dirname, Fs.os_path_join;
  match goal with |- context [chunk_column_id ?e] =>
    destruct (chunk_column_id e); rewrite <-?app_assoc; cbn [app] end;
  destruct (spawn _ _ _ _) as [[? ?] [[code ?] ?]];
  by destruct (code =? 0).

Section partition.
Variables (os : Host) (self : QservDataLoader).
Implicit Types (w : world) (dc : gmap string config_value).

(** [partitionData], step by step. *)
Lemma partition_run dc table entry data_filename w :
  dc !! table = Some (TableConfig entry) →
  partitionData os self dc table data_filename w =
  let dir := partition_dirname self table in
  let cmd := partition_command self table entry data_filename in
  match cleared dir (w_fs w) with
  | inl e => (w, inl (OSError e dir))
  | inr fs1 =>
      match Fs.os_makedirs dir fs1 with
      | inl e => (World fs1 (w_db w) (w_trace w), inl (OSError e dir))
      | inr fs2 =>
          let '(fs3, db3, (code, out, err)) := spawn os cmd fs2 (w_db w) in
          (World fs3 db3 (w_trace w ++ [EvRun cmd code]),
           if code =? 0 then inr dir else inl (SubprocessFailure code err))
      end
  end.
Proof.
  intros Hentry. destruct w as [fs db tr]. unfold partitionData.
  fold (partition_dirname self table). cbv zeta. cbn [w_fs w_db w_trace].
  unfold bind at 1. unfold os_path_exists at 1, cleared. cbn [w_fs].
  destruct (Fs.os_path_exists _ fs).
  - unfold bind at 1. unfold shutil_rmtree at 1, fs_call. cbn [w_fs w_db w_trace].
    destruct (Fs.shutil_rmtree _ fs) as [e|fs1]; [done|]. after_clear.
  - unfold bind at 1. cbn [ret]. after_clear.
Qed.

Lemma data_config_run w :
  getDataConfig self w =
  match _schemaDict self !! "Object", _schemaDict self !! "Source" with
  | Some object, Some source =>
      (w, inr (<["Source" := TableConfig
                   {| ra_column := source "`raObject`";
                      decl_column := source "`declObject`";
                      chunk_column_id := None |}]>
               (<["out-dirname" := StrValue "/data/"]>
                (<["Object" := TableConfig
                     {| ra_column := object "`ra_PS`";
                        decl_column := object "`decl_PS`";
                        chunk_column_id := Some 227 |}]> ∅))))
  | None, _ => (w, inl (KeyError "Object"))
  | Some _, None => (w, inl (KeyError "Source"))
  end.
Proof.
  unfold getDataConfig, bind.
  destruct (_schemaDict self !! "Object"); [|done].
  by destruct (_schemaDict self !! "Source").
Qed.


End partition.

(** * The pipeline *)

Section pipeline.
Variables (os : Host) (self : QservDataLoader).
Implicit Types (w : world) (fs : Fs.t) (k : path).

Local Abbreviation db := (_dbName self).
Local Abbreviation conn := (_sqlInterface_sock self).

(** A run of the provisioning that returns left a marker for every id. *)
Lemma export_dirs_inr (ids : list Z) w w' :
  workerCreateXrootdExportDirs self ids w = (w', inr tt) →
  w_db w' = w_db w ∧ w_trace w' = w_trace w
  ∧ ∀ c, c ∈ ids → w_fs w' !! xrd_file self c = Some (File "").
Proof.
  unfold workerCreateXrootdExportDirs.
  change (Fs.os_path_join (Fs.os_path_join (qserv_base_dir (config self))
            ["xrootd-run"]) ["q"; _dbName self]) with (xrd_query_dir self).
  change (Fs.os_path_join (Fs.os_path_join (qserv_base_dir (config self))
            ["xrootd-run"]) ["result"]) with (xrd_result_dir self).
  cbv zeta. intros (fs0 & _ & H)%clear_inr.
  apply bind_inr in H as (w1 & [] & (fs1 & _ & ->)%fs_call_inr & H).
  apply bind_inr in H as (w2 & [] & Hloop & H).
  apply markers_inr in Hloop as (Hdb & Htr & Hids & _).
  cbn [w_fs w_db w_trace] in *.
  apply clear_inr in H as (fs3 & Hcl & H).
  apply fs_call_inr in H as (fs4 & Hmk & ->). cbn [w_fs w_db w_trace].
  split; [done|]. split; [done|]. intros c Hc.
  assert (¬ xrd_result_dir self `prefix_of` xrd_file self c) as Hout
    by apply result_not_below_query.
  rewrite (recreate_keeps _ _ _ _ _ Hcl Hmk Hout); [by apply Hids|].
  unfold xrd_file, Fs.os_path_join. by rewrite Hids.
Qed.

(** C8.  With [commons.run_command] as the specification describes it:
    when the schema was loaded, the partition directory prepared and the
    partitioner then exits with a code other than 0,
    [loadPartitionedTable] fails with the subprocess failure that carries
    this code, and it stops there: the world is the one the partitioner
    left, and the trace has grown by the schema file and this one command
    only, so that no loader command was run, no statement was sent to
    the store and nothing was written for the metadata table, the export
    directories or the manifest. *)
Theorem partitioner_failure_stops table schemaFile data_filename w
    dc entry db1 fs1 fs2 fs3 db3 code out err :
  getDataConfig self w = (w, inr dc) →
  dc !! table = Some (TableConfig entry) →
  executeFromFile conn schemaFile (w_fs w) (w_db w) = (db1, inr tt) →
  cleared (partition_dirname self table) (w_fs w) = inr fs1 →
  Fs.os_makedirs (partition_dirname self table) fs1 = inr fs2 →
  spawn os (partition_command self table entry data_filename) fs2 db1
    = (fs3, db3, (code, out, err)) →
  code ≠ 0 →
  ∃ trace',
    trace' =
      w_trace w
      ++ [EvSqlFile schemaFile;
          EvRun (partition_command self table entry data_filename) code]
    ∧ loadPartitionedTable os self table schemaFile data_filename w
      = (World fs3 db3 trace', inl (SubprocessFailure code err))
    ∧ (∀ cmd' code', EvRun cmd' code' ∈ trace' →
         EvRun cmd' code' ∈ w_trace w
         ∨ cmd' = partition_command self table entry data_filename)
    ∧ (∀ sql, EvSql sql ∈ trace' → EvSql sql ∈ w_trace w).
Proof.
  intros Hcfg Hentry Hfile Hcl Hmk Hspawn Hcode.
  set (dir := partition_dirname self table) in *.
  set (cmd := partition_command self table entry data_filename) in *.
  eexists. split; [reflexivity|].
  set (trace' := w_trace w ++ [EvSqlFile schemaFile; EvRun cmd code]).
  split; [|split].
  - unfold loadPartitionedTable. unfold bind at 1. rewrite Hcfg.
    unfold bind at 1. unfold sock_executeFromFile at 1. rewrite Hfile.
    unfold bind at 1. rewrite (partition_run _ _ _ _ entry) by done.
    cbv zeta. cbn [w_fs w_db w_trace]. fold dir cmd.
    rewrite Hcl, Hmk, Hspawn.
    apply Z.eqb_neq in Hcode. rewrite Hcode. unfold trace'.
    by rewrite <-app_assoc.
  - unfold trace'. intros cmd' code' [?|H]%elem_of_app; [by left|].
    apply elem_of_cons in H as [|H]; [done|].
    apply list_elem_of_singleton in H as [= -> _]. by right.
  - unfold trace'. intros sql [?|H]%elem_of_app; [done|].
    apply elem_of_cons in H as [|H]; [done|].
    by apply list_elem_of_singleton in H.
Qed.

End pipeline.

Section template.
Variables (os : Host) (self : QservDataLoader).
Implicit Types (w : world) (fs : Fs.t) (k : path).

Local Abbreviation db := (_dbName self).
Local Abbreviation conn := (_sqlInterface_sock self).

Lemma sock_execute_trace sql w w' r :
  sock_execute self sql w = (w', r) →
  w_fs w' = w_fs w ∧ w_trace w' = w_trace w ++ [EvSql sql].
Proof.
  unfold sock_execute. destruct (execute _ _ _) as [db' [msg|rows]];
    by intros [= <- <-].
Qed.

Lemma create_table_trace table w w' r :
  workerCreateTable1234567890 self table w = (w', r) →
  w_trace w' = w_trace w ++ [EvSql (create_like_statement db table)].
Proof.
  unfold workerCreateTable1234567890.
  change (Py.format _ [_dbName self; table])
    with (Some (create_like_statement db table)).
  intros [(e & H & _)|(w1 & sql & [= <- <-] & H)]%bind_cases; [done|].
  apply bind_cases in H as [(e & H & _)|(w2 & rows & H & [= <- _])];
    by apply sock_execute_trace in H as [_ ?].
Qed.

Lemma registry_trace w w' r :
  workerGetNonEmptyChunkIds self w = (w', r) →
  w_trace w' = w_trace w ++ [EvSql (show_tables_statement db)].
Proof.
  unfold workerGetNonEmptyChunkIds.
  change (Py.percent show_tables_format [_dbName self])
    with (Some (show_tables_statement db)).
  intros [(e & H & _)|(w1 & sql & [= <- <-] & H)]%bind_cases; [done|].
  apply bind_cases in H as [(e & H & _)|(w2 & rows & H & H')];
    apply sock_execute_trace in H as [_ Htr]; [done|].
  assert (w_trace w' = w_trace w2) as ->; [|done].
  apply bind_cases in H' as [(e & H' & _)|(w3 & l & H' & [= <- _])];
    by apply (emits_nothing _ _ _ _ (emits_scan_rows _ _)) in H'.
Qed.

Lemma meta_table_trace table ids w w' r :
  no_percent db = true → no_percent table = true →
  masterCreateAndFeedMetaTable self table ids w = (w', r) →
  w_fs w' = w_fs w
  ∧ w_trace w' = w_trace w ++ [EvSql (meta_script db table ids)].
Proof.
  intros Hdb Ht. rewrite meta_table_run by done.
  intros [(e & H & _)|(w1 & rows & H & [= <- _])]%bind_cases;
    by apply sock_execute_trace in H.
Qed.

Lemma raw_input_trace prompt w w' (r : exn + string) :
  raw_input os prompt w = (w', r) →
  w_fs w' = w_fs w ∧ w_trace w' = w_trace w ++ [EvPrompt prompt].
Proof.
  unfold raw_input.
  intros [(e & [=] & _)|(w1 & [] & [= <-] & H)]%bind_cases.
  by destruct (stdin_line os); injection H as <- _.
Qed.

Lemma meta_script_insert (table : string) (ids : list Z) (c : Z) :
  c ∈ ids →
  ∃ before after,
    meta_script db table ids
    = before +:+ insert_meta_statement db table c +:+ after.
Proof.
  intros (l1 & l2 & ->)%list_elem_of_split. unfold meta_script.
  rewrite foldr_app. cbn [foldr].
  generalize (foldr (λ c script,
    Py.nl +:+ insert_meta_statement db table c +:+ script) "" l2) as after.
  intros after.
  exists ("USE qservMeta;" +:+ create_meta_statement table
          +:+ foldr (λ c script,
                Py.nl +:+ insert_meta_statement db table c +:+ script) "" l1
          +:+ Py.nl), after.
  rewrite !PyFacts.app_assoc. do 2 f_equal.
  induction l1 as [|x l1 IH]; cbn [foldr]; [done|].
  by rewrite !PyFacts.app_assoc, IH.
Qed.


End template.

(** * Further properties of the loader *)

(** ** The databases *)

Section databases.
Variable self : QservDataLoader.
Implicit Types (w : world) (sqls : list string).

Local Abbreviation db := (_dbName self).
Local Abbreviation conn := (_sqlInterface_sock self).

Lemma init_run w :
  initDatabases self w
  = for_each (init_statements db) (λ sql, _ ← sock_execute self sql; ret tt) w.
Proof.
  unfold initDatabases.
  change (Py.percent "DROP DATABASE IF EXISTS %s" [db])
    with (Some ("DROP DATABASE IF EXISTS " +:+ db +:+ "")).
  change (Py.percent "CREATE DATABASE %s" [db])
    with (Some ("CREATE DATABASE " +:+ db +:+ "")).
  change (Py.percent "GRANT ALL ON %s.* TO '*'@'*'" [db])
    with (Some ("GRANT ALL ON " +:+ db +:+ ".* TO '*'@'*'")).
  change (Py.percent "USE %s" [db]) with (Some ("USE " +:+ db +:+ "")).
  rewrite !PyFacts.app_nil_r. reflexivity.
Qed.

(** A loop that sends statements one after the other stops at the first
    one the store rejects. *)
Lemma execute_all_inv sqls w w' r :
  for_each sqls (λ sql, _ ← sock_execute self sql; ret tt) w = (w', r) →
  w_fs w' = w_fs w
  ∧ ∃ n, (n ≤ length sqls)%nat
      ∧ w_trace w' = w_trace w ++ (EvSql <$> take n sqls)
      ∧ (r = inr tt → n = length sqls)
      ∧ (∀ e, r = inl e →
           ∃ sql st st' msg,
             (0 < n)%nat ∧ sqls !! pred n = Some sql
             ∧ execute conn sql st = (st', inl msg)
             ∧ e = SQLError msg ∧ w_db w' = st').
Proof.
  revert w. induction sqls as [|sql sqls IH]; intros w; cbn [for_each].
  { intros [= <- <-]. split; [done|]. exists 0%nat.
    rewrite app_nil_r. repeat split; done. }
  intros [(e & H & ->)|(w1 & [] & H & Hrest)]%bind_cases.
  - apply bind_cases in H as [(e' & H & [= <-])|(w1 & rows & _ & [=])].
    pose proof (sock_execute_trace _ _ _ _ _ H) as [Hfs Htr].
    split; [done|]. exists 1%nat. cbn [length take fmap list_fmap].
    split; [lia|]. split; [done|]. split; [done|]. intros ? [= <-].
    unfold sock_execute in H.
    destruct (execute conn sql (w_db w)) as [db' [msg|rows]] eqn:Hex; [|done].
    injection H as <- <-. exists sql, (w_db w), db', msg. by repeat split; [lia|..].
  - apply bind_cases in H as [(e' & _ & [=])|(w2 & rows & H & [= <-])].
    pose proof (sock_execute_trace _ _ _ _ _ H) as [Hfs Htr].
    apply IH in Hrest as (Hfs' & n & Hn & Htr' & Hret & Herr).
    split; [congruence|]. exists (S n). cbn [length take fmap list_fmap].
    split; [lia|]. split; [by rewrite Htr', Htr, <-app_assoc|].
    split; [intros ?%Hret; lia|].
    intros e (sql' & st & st' & msg & Hpos & Hl & Hex & -> & Hdb)%Herr.
    exists sql', st, st', msg. split; [lia|]. split; [|done].
    destruct n; [lia|]. done.
Qed.

(** X1.  [initDatabases] sends its six statements in the order of the list:
    the database is dropped before it is created and granted, then
    [qservMeta] is dropped and created, and the database is selected last.
    It stops at the first statement the store rejects and fails with the
    store's error, the statements after it not being sent; it returns when
    the store accepts all six. The file system is not touched. *)
Theorem init_databases_statements w w' r :
  initDatabases self w = (w', r) →
  w_fs w' = w_fs w
  ∧ ∃ n, (n ≤ 6)%nat
      ∧ w_trace w' = w_trace w ++ (EvSql <$> take n (init_statements db))
      ∧ (r = inr tt → n = 6%nat)
      ∧ (∀ e, r = inl e →
           ∃ sql st st' msg,
             (0 < n)%nat ∧ init_statements db !! pred n = Some sql
             ∧ execute conn sql st = (st', inl msg)
             ∧ e = SQLError msg ∧ w_db w' = st')
      ∧ ((∀ sql st, sql ∈ init_statements db →
            ∃ st' rows, execute conn sql st = (st', inr rows)) →
         r = inr tt).
Proof.
  rewrite init_run. intros (Hfs & n & Hn & Htr & Hret & Herr)%execute_all_inv.
  split; [done|]. exists n. do 4 (split; [done|]).
  intros Hok. destruct r as [e|[]]; [|done].
  destruct (Herr e eq_refl) as (sql & st & st' & msg & _ & Hl & Hex & _).
  destruct (Hok sql st) as (? & ? & Hex'); [by eapply list_elem_of_lookup_2|].
  congruence.
Qed.

End databases.

(** ** The data configuration *)

(** X2.  [getDataConfig] neither reads nor changes the world. It fails with
    a [KeyError] for [Object] when the schema of [Object] is not known, and
    for [Source] when only that of [Source] is missing. Otherwise it returns
    a dict with the three keys [Object], [Source] and [out-dirname]: the
    first two hold the columns that the schema of the table gives, and
    [out-dirname] is the string [/data/], so that no other key stands for a
    table. *)
Theorem data_config_outcome (self : QservDataLoader) (w : world) :
  ∃ r, getDataConfig self w = (w, r)
    ∧ match r with
      | inr dc =>
          dom dc = ({["Object"; "Source"; "out-dirname"]} : gset string)
          ∧ dc !! "out-dirname" = Some (StrValue "/data/")
          ∧ (∃ object, _schemaDict self !! "Object" = Some object
               ∧ dc !! "Object" = Some (TableConfig
                   {| ra_column := object "`ra_PS`";
                      decl_column := object "`decl_PS`";
                      chunk_column_id := Some 227 |}))
          ∧ (∃ source, _schemaDict self !! "Source" = Some source
               ∧ dc !! "Source" = Some (TableConfig
                   {| ra_column := source "`raObject`";
                      decl_column := source "`declObject`";
                      chunk_column_id := None |}))
          ∧ (∀ table e, dc !! table = Some (TableConfig e) →
               table = "Object" ∨ table = "Source")
      | inl e =>
          (e = KeyError "Object" ∧ _schemaDict self !! "Object" = None)
          ∨ (e = KeyError "Source" ∧ is_Some (_schemaDict self !! "Object")
             ∧ _schemaDict self !! "Source" = None)
      end.
Proof.
  rewrite data_config_run.
  destruct (_schemaDict self !! "Object") as [object|] eqn:Hobject;
    [|eexists; split; [done|]; by left].
  destruct (_schemaDict self !! "Source") as [source|] eqn:Hsource;
    [|eexists; split; [done|]; right; by eauto].
  eexists. split; [done|]. split; [|split; [|split; [|split]]].
  - rewrite !dom_insert_L, dom_empty_L. set_solver.
  - done.
  - by exists object.
  - by exists source.
  - intros table e.
    destruct (decide (table = "Source")) as [->|]; [by right|].
    rewrite lookup_insert_ne by done.
    destruct (decide (table = "out-dirname")) as [->|]; [done|].
    rewrite lookup_insert_ne by done.
    destruct (decide (table = "Object")) as [->|]; [by left|].
    by rewrite lookup_insert_ne.
Qed.

(** ** The registry, once more *)

Section registry_more.
Variable self : QservDataLoader.
Implicit Types (w : world) (rows : list (list string)).

Local Abbreviation db := (_dbName self).
Local Abbreviation conn := (_sqlInterface_sock self).

Lemma digit_value_nonneg (c : ascii) : 0 ≤ Py.digit_value c.
Proof. unfold Py.digit_value. destruct (Ascii.is_nat c); lia. Qed.

Lemma int_acc_nonneg (acc : Z) (s : string) : 0 ≤ acc → 0 ≤ Py.int_acc acc s.
Proof.
  revert acc. induction s as [|c s IH]; intros acc Hacc; cbn [Py.int_acc]; [done|].
  apply IH. pose proof (digit_value_nonneg c). lia.
Qed.

Lemma int_nonneg (s : string) (c : Z) : Py.int s = Some c → 0 ≤ c.
Proof.
  unfold Py.int. destruct s; [done|]. destruct (Py.all_digits _); [|done].
  intros [= <-]. apply int_acc_nonneg.
  match goal with |- context [Py.digit_value ?a] =>
    pose proof (digit_value_nonneg a) end. lia.
Qed.

Lemma scan_row_inr (P : Z → Prop) (acc l : list Z) (row : list string) w w' :
  (∀ c, 0 ≤ c → P c) →
  scan_row acc row w = (w', inr l) → Forall P acc → w' = w ∧ Forall P l.
Proof.
  intros HP. unfold scan_row.
  intros (w1 & name & H1 & H)%bind_inr Hacc.
  destruct (row !! 0%nat) as [n|]; [|done]. injection H1 as <- <-.
  destruct (chunk_table_match n) as [ds|]; [|by injection H as <- <-].
  apply bind_inr in H as (w2 & i & H2 & [= <- <-]).
  destruct (Py.int ds) as [c|] eqn:Hc; [|done]. injection H2 as <- <-.
  split; [done|]. apply Forall_app. split; [done|].
  apply Forall_singleton, HP. by eapply int_nonneg.
Qed.

Lemma scan_rows_inr (P : Z → Prop) rows (acc l : list Z) w w' :
  (∀ c, 0 ≤ c → P c) →
  for_fold rows acc scan_row w = (w', inr l) → Forall P acc → w' = w ∧ Forall P l.
Proof.
  intros HP. revert acc w. induction rows as [|row rows IH]; intros acc w;
    cbn [for_fold].
  - by intros [= <- <-].
  - intros (w1 & acc' & H1 & H)%bind_inr Hacc.
    destruct (scan_row_inr P _ _ _ _ _ HP H1 Hacc) as [-> Hacc'].
    by eapply IH.
Qed.

(** X3.  Whenever [workerGetNonEmptyChunkIds] returns, every chunk id in its
    list is a natural number, and it is the number that its decimal name,
    under which it gets its marker and is named in the metadata script,
    reads as. The call has sent the store its one statement and has not
    touched the file system. *)
Theorem registry_ids_natural w w' (ids : list Z) :
  workerGetNonEmptyChunkIds self w = (w', inr ids) →
  w_fs w' = w_fs w
  ∧ w_trace w' = w_trace w ++ [EvSql (show_tables_statement db)]
  ∧ Forall (λ c, 0 ≤ c ∧ Py.int (Py.str c) = Some c) ids.
Proof.
  intros Hrun. pose proof (registry_trace _ _ _ _ Hrun) as Htr.
  unfold workerGetNonEmptyChunkIds in Hrun.
  apply bind_inr in Hrun as (w1 & sql & H1 & Hrun).
  destruct (Py.percent _ _); [|done]. injection H1 as <- <-.
  apply bind_inr in Hrun as (w2 & rows & (db' & _ & ->)%sock_execute_inr & Hrun).
  apply bind_inr in Hrun as (w3 & l & Hloop & [= <- <-]).
  apply (scan_rows_inr (λ c, 0 ≤ c ∧ Py.int (Py.str c) = Some c)) in Hloop
    as [-> Hl]; [|auto using DecimalFacts.int_str|constructor].
  split; [done|]. split; [done|].
  unfold Py.sorted. by rewrite merge_sort_Permutation.
Qed.

End registry_more.



(** ** Names of chunk relations *)

Module TableNames.
Import PyFacts.

Lemma all_digits_app (a b : string) :
  Py.all_digits (a +:+ b) = Py.all_digits a && Py.all_digits b.
Proof.
  induction a as [|c a IH]; [done|].
  rewrite app_cons. cbn [Py.all_digits]. by rewrite IH, andb_assoc.
Qed.

(** What ends with a newline has the newline in its last part. *)
Lemma ends_with_nl (x s y : string) :
  x +:+ s = y +:+ Py.nl → s ≠ "" → ∃ s', s = s' +:+ Py.nl.
Proof.
  revert y. induction x as [|c x IH]; intros y E Hs.
  - rewrite app_nil_l in E. eauto.
  - rewrite app_cons in E. destruct y as [|d y].
    + rewrite app_nil_l in E. injection E as _ E.
      destruct x; [|done]. by rewrite app_nil_l in E.
    + rewrite app_cons in E. injection E as _ E. by eapply IH.
Qed.

Lemma no_digits_nl (s : string) : Py.all_digits (s +:+ Py.nl) = false.
Proof. rewrite all_digits_app. by rewrite andb_false_r. Qed.

Lemma no_digits_underscore (a s : string) :
  Py.all_digits (a +:+ "_" +:+ s) = false.
Proof. rewrite all_digits_app. by rewrite andb_false_r. Qed.

End TableNames.

Section other_tables.
Variable self : QservDataLoader.
Implicit Types (w : world).
Import TableNames.

Local Abbreviation db := (_dbName self).
Local Abbreviation conn := (_sqlInterface_sock self).

(** A name [t_<digits>] that the pattern matches has [t = Object]. *)
Lemma object_prefix_only (t s ds tl : string) :
  Py.all_digits s = true → s ≠ "" → Py.all_digits ds = true →
  tl = "" ∨ tl = Py.nl →
  t +:+ "_" +:+ s = "Object_" +:+ ds +:+ tl → t = "Object".
Proof.
  intros Hs Hne Hds Htl E.
  do 6 (destruct t as [|? t]; [discriminate E|];
        rewrite PyFacts.app_cons in E; injection E as -> E).
  destruct t as [|? t]; [done|].
  rewrite PyFacts.app_cons in E. injection E as -> E.
  destruct Htl as [-> | ->].
  - rewrite PyFacts.app_nil_r, ?PyFacts.app_nil_l in E. subst ds.
    by rewrite no_digits_underscore in Hds.
  - rewrite ?PyFacts.app_nil_l, <-PyFacts.app_assoc in E.
    apply ends_with_nl in E as [s' ->]; [|done].
    by rewrite no_digits_nl in Hs.
Qed.

Lemma chunk_id_of_table_row (t : string) (c : Z) :
  0 ≤ c →
  chunk_id_of_row [t +:+ "_" +:+ Py.str c]
  = if decide (t = "Object") then Some c else None.
Proof.
  intros Hc. case_decide as Ht.
  - subst t. by apply NameFacts.chunk_id_of_name.
  - unfold chunk_id_of_row. cbn [lookup list_lookup mbind option_bind].
    destruct (chunk_table_match _) as [ds|] eqn:Hm; [|done].
    apply NameFacts.chunk_table_match_spec in Hm as (Hne & Hds & Hname).
    destruct Ht. destruct Hname as [E|E].
    + apply (object_prefix_only t (Py.str c) ds "");
        auto using DecimalFacts.all_digits_str, DecimalFacts.str_nonempty.
      by rewrite PyFacts.app_nil_r.
    + apply (object_prefix_only t (Py.str c) ds Py.nl);
        auto using DecimalFacts.all_digits_str, DecimalFacts.str_nonempty.
Qed.

(** X5.  The registry counts the chunk relations of [Object] and of no other
    table. When the store lists the chunk relations [t_c] of some tables
    [t], for chunk ids [c] that are natural numbers,
    [workerGetNonEmptyChunkIds] returns the sorted ids of those whose table
    is [Object]; the chunk relations of [Source] or of any other table add
    nothing to the list. *)
Theorem registry_reads_object_only w st' (listed : list (string * Z)) :
  execute conn (show_tables_statement db) (w_db w)
    = (st', inr ((λ tc, [tc.1 +:+ "_" +:+ Py.str tc.2]) <$> listed)) →
  Forall (λ tc, 0 ≤ tc.2) listed →
  workerGetNonEmptyChunkIds self w
  = (World (w_fs w) st' (w_trace w ++ [EvSql (show_tables_statement db)]),
     inr (Py.sorted (snd <$> filter (λ tc, tc.1 = "Object") listed))).
Proof.
  intros Hex Hnat. rewrite (registry_run self w st' _ Hex).
  2:{ apply Forall_fmap, Forall_forall. done. }
  clear Hex. do 3 f_equal. induction Hnat as [|[t c] listed Hc _ IH]; [done|].
  rewrite fmap_cons, filter_cons. cbn [omap list_omap fst snd].
  rewrite chunk_id_of_table_row by done. rewrite IH.
  by case_decide.
Qed.

End other_tables.

(** ** The manifest, once more *)

Section manifest_more.
Variable self : QservDataLoader.
Implicit Types (fs : Fs.t) (w : world) (S : list Z).

Lemma dirname_ne (p : path) : p ≠ [] → Fs.dirname p ≠ p.
Proof.
  destruct p as [|x p _] using rev_ind; [done|]. intros _.
  rewrite dirname_snoc. intros E. apply (f_equal length) in E.
  rewrite length_app in E. simpl in E. lia.
Qed.

(** A file that could be opened for writing can be opened again. *)
Lemma open_w_again file fs fs1 c :
  Fs.open_w file fs = inr fs1 →
  Fs.open_w file (<[file := File c]> fs)
  = inr (<[file := File ""]> (<[file := File c]> fs)).
Proof.
  unfold Fs.open_w. rewrite lookup_insert_eq.
  destruct file as [|x file]; [by destruct (fs !! [] ) as [[]|]|].
  rewrite lookup_insert_ne by (apply not_eq_sym, dirname_ne; done).
  destruct (fs !! (x :: file)) as [[]|]; [done|..];
    by destruct (fs !! Fs.dirname (x :: file)) as [[]|].
Qed.

(** X6.  The manifest is rewritten, not extended: when
    [masterCreateEmptyChunksFile] has written the file once, a second call
    on the same file returns as well, and it leaves what it would have left
    without the first call, whatever the first call was given. In
    particular, the call made again with the same ids changes nothing. *)
Theorem manifest_last_run_wins stripes1 S1 stripes2 S2 file w w1 :
  masterCreateEmptyChunksFile self stripes1 S1 file w = (w1, inr tt) →
  masterCreateEmptyChunksFile self stripes2 S2 file w1
    = (World (<[file := File (manifest_text (empty_chunks_list S2))]> (w_fs w))
         (w_db w) (w_trace w), inr tt)
  ∧ masterCreateEmptyChunksFile self stripes2 S2 file w1
    = masterCreateEmptyChunksFile self stripes2 S2 file w
  ∧ masterCreateEmptyChunksFile self stripes1 S1 file w1 = (w1, inr tt).
Proof.
  rewrite !manifest_run.
  destruct (Fs.open_w file (w_fs w)) as [e|fs1] eqn:Hopen; [done|].
  intros [= <-]. cbn [w_fs w_db w_trace].
  rewrite !(open_w_again _ _ _ _ Hopen). by rewrite !insert_insert_eq.
Qed.

End manifest_more.

(** ** The export directories, once more *)

Section export_dirs_more.
Variable self : QservDataLoader.
Implicit Types (fs : Fs.t) (k : path) (w : world).

Local Abbreviation qdir := (xrd_query_dir self).
Local Abbreviation rdir := (xrd_result_dir self).

(** The file system that the provisioning leaves, for the lemmas below. *)
Local Abbreviation provisioned ids fs0 := (λ k : path,
  if decide (k `prefix_of` rdir) then Some Dir
  else if decide (rdir `prefix_of` k) then None
  else if decide (k ∈ (λ c : Z, qdir ++ [Py.str c]) <$> ids) then Some (File "")
  else if decide (k `prefix_of` qdir) then Some Dir
  else if decide (qdir `prefix_of` k) then None
  else fs0 !! k).

Lemma markers_same_ids (ids ids' : list Z) k :
  (∀ c, c ∈ ids ↔ c ∈ ids') →
  k ∈ (λ c : Z, qdir ++ [Py.str c]) <$> ids
  ↔ k ∈ (λ c : Z, qdir ++ [Py.str c]) <$> ids'.
Proof.
  intros Hids. rewrite !list_elem_of_fmap.
  split; intros (c & -> & Hc); exists c; (split; [done|]); by apply Hids.
Qed.

(** X7.  The markers depend on which chunk ids are in the list, not on their
    order nor on how often one occurs: on a file system that is a tree, a
    call of [workerCreateXrootdExportDirs] that returns leaves the same
    world as the call with any list of the same ids. *)
Theorem export_dirs_same_ids (ids ids' : list Z) w w' :
  Fs.wf (w_fs w) →
  (∀ c, c ∈ ids ↔ c ∈ ids') →
  workerCreateXrootdExportDirs self ids w = (w', inr tt) →
  workerCreateXrootdExportDirs self ids' w = (w', inr tt).
Proof.
  intros Hwf Hids Hrun.
  destruct (export_dirs_inr_dirs_only self ids w w') as [Hq Hr]; [done..|].
  destruct (export_dirs_spec self ids w) as (fs1 & Hrun1 & _ & Hl1); [done..|].
  destruct (export_dirs_spec self ids' w) as (fs2 & Hrun2 & _ & Hl2); [done..|].
  rewrite Hrun1 in Hrun. injection Hrun as <-. rewrite Hrun2.
  do 2 f_equal. apply map_eq. intros k. rewrite Hl1, Hl2.
  do 2 (case_decide; [done|]).
  pose proof (markers_same_ids ids ids' k Hids) as Hm.
  destruct (decide (k ∈ (λ c : Z, qdir ++ [Py.str c]) <$> ids)) as [H1|H1];
    destruct (decide (k ∈ (λ c : Z, qdir ++ [Py.str c]) <$> ids')) as [H2|H2];
    tauto || done.
Qed.

(** After the provisioning no regular file is in the way of the two
    directories. *)
Lemma provisioned_dirs_only (ids : list Z) fs fs' :
  (∀ k, fs' !! k = provisioned ids fs k) →
  dirs_only fs' qdir ∧ dirs_only fs' rdir.
Proof.
  intros Hl. split; intros k c Hk; rewrite Hl.
  - case_decide; [done|]. case_decide as Hrk.
    { destruct (result_not_below_query self []). rewrite app_nil_r. by etrans. }
    case_decide as Hm.
    { apply marker_paths in Hm as (c' & _ & ->). by apply prefix_snoc_not in Hk. }
    by rewrite decide_True.
  - by rewrite decide_True.
Qed.

(** X8.  What a call leaves does not depend on the call before it: on a file
    system that is a tree, after a call of [workerCreateXrootdExportDirs]
    that returned, a second call returns as well, whatever its ids, and
    leaves what it would have left without the first call; no marker of the
    first call outlives the second. In particular a call made again with the
    same ids changes nothing. *)
Theorem export_dirs_last_call_wins (ids1 ids2 : list Z) w w1 :
  Fs.wf (w_fs w) →
  workerCreateXrootdExportDirs self ids1 w = (w1, inr tt) →
  (∃ w2, workerCreateXrootdExportDirs self ids2 w1 = (w2, inr tt)
         ∧ workerCreateXrootdExportDirs self ids2 w = (w2, inr tt))
  ∧ workerCreateXrootdExportDirs self ids1 w1 = (w1, inr tt).
Proof.
  intros Hwf Hrun.
  destruct (export_dirs_inr_dirs_only self ids1 w w1) as [Hq Hr]; [done..|].
  destruct (export_dirs_spec self ids1 w) as (fs1 & Hrun1 & Hwf1 & Hl1); [done..|].
  rewrite Hrun1 in Hrun. injection Hrun as <-.
  destruct (provisioned_dirs_only ids1 (w_fs w) fs1 Hl1) as [Hq1 Hr1].
  assert (∀ ids : list Z,
            ∃ fs2, workerCreateXrootdExportDirs self ids
                     (World fs1 (w_db w) (w_trace w))
                   = (World fs2 (w_db w) (w_trace w), inr tt)
              ∧ workerCreateXrootdExportDirs self ids w
                = (World fs2 (w_db w) (w_trace w), inr tt)) as Hagain.
  { intros ids.
    destruct (export_dirs_spec self ids (World fs1 (w_db w) (w_trace w)))
      as (fs2 & Hrun2 & _ & Hl2); [done..|].
    destruct (export_dirs_spec self ids w) as (fs2' & Hrun2' & _ & Hl2'); [done..|].
    cbn [w_fs w_db w_trace] in *. exists fs2. split; [done|].
    rewrite Hrun2'. do 2 f_equal. apply map_eq. intros k.
    rewrite Hl2, Hl2'. repeat case_decide; try done.
    rewrite Hl1. rewrite !decide_False; try done.
    intros (c & _ & ->)%marker_paths.
    match goal with H : ¬ qdir `prefix_of` _ |- _ => apply H end.
    by apply prefix_app_r. }
  split.
  - destruct (Hagain ids2) as (fs2 & ? & ?). eauto.
  - destruct (Hagain ids1) as (fs2 & -> & Hsame).
    rewrite Hrun1 in Hsame. by injection Hsame as <-.
Qed.


End export_dirs_more.

(** ** The partitioner and the chunk loader, once more *)

Section partition_more.
Variables (os : Host) (self : QservDataLoader).
Implicit Types (w : world) (fs : Fs.t) (k : path) (dc : gmap string config_value).

Local Abbreviation pdir table := (partition_dirname self table).

Lemma partition_dirname_ne table : pdir table ≠ [].
Proof. unfold partition_dirname, Fs.os_path_join. apply snoc_not_nil. Qed.

(** [partitionData] prepares the partition directory, then looks the
    table up and runs the command. *)
Lemma partition_steps dc table data_filename w :
  partitionData os self dc table data_filename w =
  match cleared (pdir table) (w_fs w) with
  | inl e => (w, inl (OSError e (pdir table)))
  | inr fs1 =>
      match Fs.os_makedirs (pdir table) fs1 with
      | inl e => (World fs1 (w_db w) (w_trace w), inl (OSError e (pdir table)))
      | inr fs2 =>
          (entry ← table_entry dc table;
           out ← commons_run_command os
                   (partition_command self table entry data_filename);
           ret (pdir table)) (World fs2 (w_db w) (w_trace w))
      end
  end.
Proof.
  assert (∀ w1,
    (entry ← table_entry dc table;
     out ← commons_run_command os
       (match chunk_column_id entry with
        | Some i =>
            [ bin_python (config self);
              Fs.to_string (Fs.os_path_join (qserv_base_dir (config self))
                              ["qserv"; "master"; "examples"; "partition.py"]);
              "--output-dir"; Fs.to_string (pdir table);
              "--chunk-prefix"; table;
              "--theta-column"; Py.str (ra_column entry);
              "--phi-column"; Py.str (decl_column entry);
              "--num-stripes"; qserv_stripes (config self);
              "--num-sub-stripes"; qserv_substripes (config self);
              "--delimiter"; Py.tab ] ++ ["--chunk-column"; Py.str i]
        | None =>
            [ bin_python (config self);
              Fs.to_string (Fs.os_path_join (qserv_base_dir (config self))
                              ["qserv"; "master"; "examples"; "partition.py"]);
              "--output-dir"; Fs.to_string (pdir table);
              "--chunk-prefix"; table;
              "--theta-column"; Py.str (ra_column entry);
              "--phi-column"; Py.str (decl_column entry);
              "--num-stripes"; qserv_stripes (config self);
              "--num-sub-stripes"; qserv_substripes (config self);
              "--delimiter"; Py.tab ]
        end ++ [data_filename]);
     ret (pdir table)) w1
    = (entry ← table_entry dc table;
       out ← commons_run_command os
               (partition_command self table entry data_filename);
       ret (pdir table)) w1) as Hrest.
  { intros w1. unfold bind at 1 3.
    destruct (table_entry dc table w1) as [w2 [e|entry]]; [done|].
    unfold partition_command, Fs.os_path_join.
    destruct (chunk_column_id entry); by rewrite <-?app_assoc. }
  destruct w as [fs db tr]. unfold partitionData.
  fold (partition_dirname self table). cbv zeta. cbn [w_fs w_db w_trace].
  unfold bind at 1. unfold os_path_exists at 1, cleared. cbn [w_fs].
  destruct (Fs.os_path_exists _ fs).
  - unfold bind at 1. unfold shutil_rmtree at 1, fs_call. cbn [w_fs w_db w_trace].
    destruct (Fs.shutil_rmtree _ fs) as [e|fs1]; [done|].
    unfold bind at 1. unfold os_makedirs at 1, fs_call. cbn [w_fs w_db w_trace].
    destruct (Fs.os_makedirs _ fs1) as [e|fs2]; [done|]. apply Hrest.
  - unfold bind at 1. cbn [ret].
    unfold bind at 1. unfold os_makedirs at 1, fs_call. cbn [w_fs w_db w_trace].
    destruct (Fs.os_makedirs _ fs) as [e|fs2]; [done|]. apply Hrest.
Qed.

(** The directory that [partitionData] prepares, and what is left to do
    once it is there. *)
Lemma partition_prepared dc table data_filename w :
  Fs.wf (w_fs w) → dirs_only (w_fs w) (pdir table) →
  ∃ fs2,
    Fs.wf fs2
    ∧ (∀ k, fs2 !! k =
            if decide (k `prefix_of` pdir table) then Some Dir
            else if decide (pdir table `prefix_of` k) then None
            else w_fs w !! k)
    ∧ partitionData os self dc table data_filename w
      = (entry ← table_entry dc table;
         out ← commons_run_command os
                 (partition_command self table entry data_filename);
         ret (pdir table)) (World fs2 (w_db w) (w_trace w)).
Proof.
  destruct w as [fs db tr]. cbn [w_fs w_db w_trace]. intros Hwf Hd.
  destruct (recreate_spec (pdir table) fs db tr) as (fs2 & Hwf2 & Hl2 & _ & Hrun);
    [apply partition_dirname_ne|done..|].
  exists fs2. split; [done|]. split; [done|].
  unfold partitionData. fold (partition_dirname self table). cbv zeta.
  rewrite Hrun. unfold bind at 1 3.
  destruct (table_entry dc table _) as [w1 [e|entry]]; [done|].
  unfold partition_command, Fs.os_path_join.
  destruct (chunk_column_id entry); by rewrite <-?app_assoc.
Qed.

Lemma fresh_directory (dir : path) fs fs2 :
  (∀ k, fs2 !! k =
        if decide (k `prefix_of` dir) then Some Dir
        else if decide (dir `prefix_of` k) then None
        else fs !! k) →
  fs2 !! dir = Some Dir ∧ Fs.listdir dir fs2 = ∅.
Proof.
  intros Hl. split; [by rewrite Hl, decide_True|].
  apply set_eq. intros n. rewrite elem_of_listdir, Hl.
  rewrite decide_False by apply prefix_snoc_not.
  rewrite decide_True by by apply prefix_app_r.
  split; [by intros [? [=]]|set_solver].
Qed.


Lemma partition_no_entry dc table data_filename w :
  (∀ entry, dc !! table ≠ Some (TableConfig entry)) →
  ∃ fs' e,
    partitionData os self dc table data_filename w
      = (World fs' (w_db w) (w_trace w), inl e)
    ∧ ((∃ en p, e = OSError en p)
       ∨ e = match dc !! table with None => KeyError table | Some _ => TypeError end).
Proof.
  intros Hentry. rewrite partition_steps.
  destruct (cleared _ _) as [en|fs1];
    [destruct w; eexists _, _; split; [reflexivity|left; by eexists _, _]|].
  destruct (Fs.os_makedirs _ _) as [en|fs2];
    [eexists _, _; split; [reflexivity|left; by eexists _, _]|].
  unfold bind, table_entry.
  destruct (dc !! table) as [[entry|s]|] eqn:Hdc; [by destruct (Hentry entry)|..];
    (eexists _, _; split; [reflexivity|by right]).
Qed.


Lemma load_run (partition_dirname : path) (table : string) w :
  loadPartitionedData os self partition_dirname table w
  = (out ← commons_run_command os (load_command self partition_dirname table);
     ret tt) w.
Proof.
  unfold loadPartitionedData.
  change (Py.percent "--user=%s" [mysqld_user (config self)])
    with (Some ("--user=" +:+ mysqld_user (config self) +:+ "")).
  change (Py.percent "--password=%s" [mysqld_pass (config self)])
    with (Some ("--password=" +:+ mysqld_pass (config self) +:+ "")).
  change (Py.percent "--database=%s" [_dbName self])
    with (Some ("--database=" +:+ _dbName self +:+ "")).
  change (Py.percent "%s:%s" [qserv_master (config self); mysqld_port (config self)])
    with (Some (qserv_master (config self) +:+ ":" +:+ mysqld_port (config self) +:+ "")).
  change (Py.percent "%s.%s" [_dbName self; table])
    with (Some (_dbName self +:+ "." +:+ table +:+ "")).
  rewrite !PyFacts.app_nil_r. cbv zeta. unfold bind at 1 2 3 4 5.
  cbn [from_option ret]. reflexivity.
Qed.

(** X12.  [loadPartitionedData] runs one command and nothing else: the
    interpreter, the loader script, the user, the password and the database
    as options, the address [master:port], the partition directory and the
    qualified table name, in this order. The values of the configuration are
    passed as they are, whatever characters they hold, so that no error
    precedes the command; the call fails exactly when the command exits with
    a code other than 0. *)
Theorem load_command_line (partition_dirname : path) (table : string) w :
  ∃ fs' db' code out err,
    spawn os (load_command self partition_dirname table) (w_fs w) (w_db w)
      = (fs', db', (code, out, err))
    ∧ loadPartitionedData os self partition_dirname table w
      = (World fs' db'
           (w_trace w ++ [EvRun (load_command self partition_dirname table) code]),
         if code =? 0 then inr tt else inl (SubprocessFailure code err))
    ∧ load_command self partition_dirname table
      = [ bin_python (config self);
          Fs.to_string (qserv_base_dir (config self)
                        ++ ["qserv"; "master"; "examples"; "loader.py"]);
          "--user=" +:+ mysqld_user (config self);
          "--password=" +:+ mysqld_pass (config self);
          "--database=" +:+ _dbName self;
          qserv_master (config self) +:+ ":" +:+ mysqld_port (config self);
          Fs.to_string partition_dirname;
          _dbName self +:+ "." +:+ table ].
Proof.
  destruct (spawn os (load_command self partition_dirname table) (w_fs w) (w_db w))
    as [[fs' db'] [[code out] err]] eqn:Hspawn.
  exists fs', db', code, out, err. split; [done|]. split; [|done].
  rewrite load_run. unfold bind, commons_run_command. rewrite Hspawn.
  by destruct (code =? 0).
Qed.

End partition_more.

(** ** The pipeline, once more *)

Section pipeline_more.
Variable self : QservDataLoader.
Implicit Types (os : Host) (w : world) (fs : Fs.t) (k : path).

Local Abbreviation db := (_dbName self).
Local Abbreviation conn := (_sqlInterface_sock self).

Lemma prompt_format (table : string) :
  Py.percent
    ("Qserv mono-node database filled with partitionned '%s' data."
     +:+ Py.nl +:+ "Press Enter to continue...") [table]
  = Some (prompt_text table).
Proof. reflexivity. Qed.

Lemma bind_run {A B} (m : M A) (f : A → M B) w w1 a :
  m w = (w1, inr a) → bind m f w = f a w1.
Proof. unfold bind. by intros ->. Qed.

Lemma data_config_inr w w1 dc :
  getDataConfig self w = (w1, inr dc) →
  w1 = w
  ∧ ∀ table e, dc !! table = Some (TableConfig e) →
      table = "Object" ∨ table = "Source".
Proof.
  rewrite data_config_run.
  destruct (_schemaDict self !! "Object"); [|done].
  destruct (_schemaDict self !! "Source"); [|done].
  intros [= <- <-]. split; [done|]. intros table e.
  destruct (decide (table = "Source")) as [->|]; [by right|].
  rewrite lookup_insert_ne by done.
  destruct (decide (table = "out-dirname")) as [->|]; [done|].
  rewrite lookup_insert_ne by done.
  destruct (decide (table = "Object")) as [->|]; [by left|].
  by rewrite lookup_insert_ne.
Qed.

Lemma data_config_inl w w1 e :
  getDataConfig self w = (w1, inl e) → w1 = w.
Proof.
  rewrite data_config_run.
  destruct (_schemaDict self !! "Object"); [|by intros [= <-]].
  destruct (_schemaDict self !! "Source"); [done|by intros [= <-]].
Qed.

Lemma executeFromFile_trace file w w' r :
  sock_executeFromFile self file w = (w', r) →
  w_fs w' = w_fs w ∧ w_trace w' = w_trace w ++ [EvSqlFile file].
Proof.
  unfold sock_executeFromFile.
  destruct (executeFromFile _ _ _ _) as [db' [msg|[]]]; by intros [= <- <-].
Qed.

Lemma run_command_inr os cmd w w' out :
  commons_run_command os cmd w = (w', inr out) →
  w_trace w' = w_trace w ++ [EvRun cmd 0].
Proof.
  unfold commons_run_command.
  destruct (spawn os cmd _ _) as [[fs' db'] [[code out'] err]].
  destruct (code =? 0) eqn:Hcode; [|done]. apply Z.eqb_eq in Hcode as ->.
  by intros [= <- _].
Qed.

Lemma partition_inr os dc table data_filename w w' dir :
  partitionData os self dc table data_filename w = (w', inr dir) →
  dir = partition_dirname self table
  ∧ ∃ entry,
      dc !! table = Some (TableConfig entry)
      ∧ w_trace w'
        = w_trace w ++ [EvRun (partition_command self table entry data_filename) 0].
Proof.
  rewrite partition_steps.
  destruct (cleared _ _) as [e|fs1]; [done|].
  destruct (Fs.os_makedirs _ _) as [e|fs2]; [done|].
  intros (w1 & entry & H1 & H)%bind_inr.
  apply bind_inr in H as (w2 & out & H2 & [= <- <-]). split; [done|].
  unfold table_entry in H1.
  destruct (dc !! table) as [[entry'|s]|] eqn:Hdc; [|done..].
  injection H1 as <- <-. exists entry'. split; [done|].
  by apply run_command_inr in H2.
Qed.

Lemma load_inr os dir table w w' :
  loadPartitionedData os self dir table w = (w', inr tt) →
  w_trace w' = w_trace w ++ [EvRun (load_command self dir table) 0].
Proof.
  rewrite load_run. intros (w1 & out & H & [= <-])%bind_inr.
  by apply run_command_inr in H.
Qed.

Lemma manifest_not_marker (c : Z) : manifest_path self ≠ xrd_file self c.
Proof.
  unfold manifest_path, xrd_file, xrd_query_dir, xrootd_run_dir, Fs.os_path_join.
  rewrite <-!app_assoc. intros E%app_inv_head. discriminate E.
Qed.


(** X14.  The pipeline ends with a prompt, and the line typed there is read
    and dropped. When a run of [loadPartitionedTable] returns, the same run
    with any other line gives the same result; and with the standard input
    at its end, the run does all its work, leaves the very same world, and
    then fails with [EOFError]. *)
Theorem closed_stdin_fails_last run line table schemaFile data_filename w w' :
  loadPartitionedTable {| spawn := run; stdin_line := Some line |} self
    table schemaFile data_filename w = (w', inr tt) →
  loadPartitionedTable {| spawn := run; stdin_line := None |} self
    table schemaFile data_filename w = (w', inl EOFError)
  ∧ ∀ line',
      loadPartitionedTable {| spawn := run; stdin_line := Some line' |} self
        table schemaFile data_filename w = (w', inr tt).
Proof.
  intros Hrun. unfold loadPartitionedTable in Hrun.
  apply bind_inr in Hrun as (w1 & dc & H1 & Hrun).
  apply bind_inr in Hrun as (w2 & [] & H2 & Hrun).
  apply bind_inr in Hrun as (w3 & dir & H3 & Hrun).
  apply bind_inr in Hrun as (w4 & [] & H4 & Hrun).
  apply bind_inr in Hrun as (w5 & [] & H5 & Hrun).
  apply bind_inr in Hrun as (w6 & ids & H6 & Hrun).
  apply bind_inr in Hrun as (w7 & [] & H7 & Hrun).
  apply bind_inr in Hrun as (w8 & [] & H8 & Hrun).
  cbv zeta in Hrun. apply bind_inr in Hrun as (w9 & [] & H9 & Hrun).
  apply bind_inr in Hrun as (w10 & prompt & H10 & Hrun).
  apply bind_inr in Hrun as (w11 & typed & H11 & [= <-]).
  assert (∀ typed' : option string,
    loadPartitionedTable {| spawn := run; stdin_line := typed' |} self
      table schemaFile data_filename w
    = (_ ← raw_input {| spawn := run; stdin_line := typed' |} prompt; ret tt) w10)
    as Hsame.
  { intros typed'. unfold loadPartitionedTable.
    rewrite (bind_run _ _ _ _ _ H1), (bind_run _ _ _ _ _ H2).
    rewrite (bind_run _ _ _ _ _
               (H3 : partitionData {| spawn := run; stdin_line := typed' |}
                       self dc table data_filename w2 = _)).
    rewrite (bind_run _ _ _ _ _
               (H4 : loadPartitionedData {| spawn := run; stdin_line := typed' |}
                       self dir table w3 = _)).
    rewrite (bind_run _ _ _ _ _ H5), (bind_run _ _ _ _ _ H6).
    rewrite (bind_run _ _ _ _ _ H7), (bind_run _ _ _ _ _ H8).
    cbv zeta. rewrite (bind_run _ _ _ _ _ H9). by rewrite (bind_run _ _ _ _ _ H10). }
  unfold raw_input, bind, log_event in H11. cbn in H11. injection H11 as <- _.
  split; [|intros line']; by rewrite Hsame.
Qed.

(** X15.  Only [Object] and [Source] can be loaded. For any other table a
    run of [loadPartitionedTable] fails, and it fails before any command is
    run and before any statement is sent through [execute]: at most the
    schema file has been handed to the store by then. *)
Theorem unknown_table_runs_nothing os table schemaFile data_filename w w' r :
  table ≠ "Object" → table ≠ "Source" →
  loadPartitionedTable os self table schemaFile data_filename w = (w', r) →
  (∃ e, r = inl e)
  ∧ (w_trace w' = w_trace w ∨ w_trace w' = w_trace w ++ [EvSqlFile schemaFile]).
Proof.
  intros Hobject Hsource Hrun. unfold loadPartitionedTable in Hrun.
  apply bind_cases in Hrun as [(e & H1 & ->)|(w1 & dc & H1 & Hrun)].
  { apply data_config_inl in H1 as ->. eauto. }
  apply data_config_inr in H1 as [-> Htables].
  apply bind_cases in Hrun as [(e & H2 & ->)|(w2 & [] & H2 & Hrun)];
    apply executeFromFile_trace in H2 as [_ E2]; [by eauto|].
  destruct (partition_no_entry os self dc table data_filename w2)
    as (fs' & e & H3 & _).
  { intros entry [?|?]%Htables; done. }
  apply bind_cases in Hrun as [(e' & H3' & ->)|(w3 & dir & H3' & _)].
  - rewrite H3 in H3'. injection H3' as <- _. eauto.
  - by rewrite H3 in H3'.
Qed.

End pipeline_more.

(** ** The pipeline on a file system that is a tree *)

Section tree.
Implicit Types (fs : Fs.t) (p k : path).

Lemma mkdir_wf p fs fs' : Fs.wf fs → Fs.os_mkdir p fs = inr fs' → Fs.wf fs'.
Proof.
  intros Hwf. unfold Fs.os_mkdir. destruct (fs !! p) eqn:Hp; [done|].
  destruct p as [|x p _] using rev_ind; [done|].
  rewrite dirname_snoc.
  destruct (p ++ [x]) eqn:E; [by destruct (snoc_not_nil _ _ E)|]. rewrite <-E.
  clear E. destruct (fs !! p) as [[|c]|] eqn:Hd; [|done..]. intros [= <-].
  apply wf_alt in Hwf as [Hroot Hwf]. apply wf_alt. split.
  - rewrite lookup_insert_ne; [done|]. apply snoc_not_nil.
  - intros k k' Hk Hpre Hne.
    destruct (decide (k' = p ++ [x])) as [->|Hk'].
    { by rewrite lookup_insert_eq. }
    rewrite lookup_insert_ne by done.
    destruct (decide (k = p ++ [x])) as [->|Hkne].
    + apply prefix_snoc in Hpre as [Hpre|]; [|done].
      destruct (decide (k' = p)) as [->|]; [done|]. by apply (Hwf p).
    + rewrite lookup_insert_ne in Hk by done. by apply (Hwf k).
Qed.

Lemma makedirs_wf p fs fs' : Fs.wf fs → Fs.os_makedirs p fs = inr fs' → Fs.wf fs'.
Proof.
  unfold Fs.os_makedirs. generalize (reverse p) as rp. clear p.
  intros rp. revert fs'. induction rp as [|x rp IH]; intros fs' Hwf;
    cbn [Fs.makedirs_rev].
  - by apply mkdir_wf.
  - destruct (Fs.os_path_exists _ fs); [by apply mkdir_wf|].
    destruct (Fs.makedirs_rev rp fs) as [[]|fs1] eqn:Hrec;
      [done|by apply mkdir_wf|done..|].
    apply mkdir_wf. by apply IH.
Qed.

End tree.

Section pipeline_tree.
Variable self : QservDataLoader.
Implicit Types (os : Host) (w : world) (fs : Fs.t) (k : path).

Local Abbreviation db := (_dbName self).
Local Abbreviation qdir := (xrd_query_dir self).
Local Abbreviation rdir := (xrd_result_dir self).

Lemma run_command_wf os cmd w w' r :
  keeps_tree os → Fs.wf (w_fs w) →
  commons_run_command os cmd w = (w', r) → Fs.wf (w_fs w').
Proof.
  intros Hos Hwf. unfold commons_run_command.
  pose proof (Hos cmd (w_fs w) (w_db w) Hwf) as Hwf'.
  destruct (spawn os cmd _ _) as [[fs' db'] [[code out] err]].
  by destruct (code =? 0); intros [= <- _].
Qed.

Lemma partition_inr_wf os dc table data_filename w w' dir :
  keeps_tree os → Fs.wf (w_fs w) →
  partitionData os self dc table data_filename w = (w', inr dir) →
  Fs.wf (w_fs w').
Proof.
  intros Hos Hwf. rewrite partition_steps.
  destruct (cleared _ _) as [e|fs1] eqn:Hcl; [done|].
  destruct (Fs.os_makedirs _ _) as [e|fs2] eqn:Hmk; [done|].
  intros (w1 & entry & H1 & H)%bind_inr.
  apply bind_inr in H as (w2 & out & H2 & [= <- _]).
  unfold table_entry in H1. destruct (dc !! table) as [[]|]; [|done..].
  injection H1 as <- _. apply (run_command_wf _ _ _ _ _ Hos) in H2; [done|].
  cbn [w_fs]. apply (makedirs_wf _ _ _ (cleared_wf _ _ _ (partition_dirname_ne
    self table) Hwf Hcl) Hmk).
Qed.

Lemma load_inr_wf os dir table w w' :
  keeps_tree os → Fs.wf (w_fs w) →
  loadPartitionedData os self dir table w = (w', inr tt) → Fs.wf (w_fs w').
Proof.
  intros Hos Hwf. rewrite load_run. intros (w1 & out & H & [= <-])%bind_inr.
  by eapply run_command_wf.
Qed.

Lemma create_table_fs table w w' r :
  workerCreateTable1234567890 self table w = (w', r) → w_fs w' = w_fs w.
Proof.
  unfold workerCreateTable1234567890.
  change (Py.format _ [_dbName self; table])
    with (Some (create_like_statement db table)).
  intros [(e & H & _)|(w1 & sql & [= <- <-] & H)]%bind_cases; [done|].
  apply bind_cases in H as [(e & H & _)|(w2 & rows & H & [= <- _])];
    by apply sock_execute_trace in H as [? _].
Qed.

Lemma registry_inr_fs w w' ids :
  workerGetNonEmptyChunkIds self w = (w', inr ids) → w_fs w' = w_fs w.
Proof.
  unfold workerGetNonEmptyChunkIds.
  intros (w1 & sql & H1 & Hrun)%bind_inr.
  destruct (Py.percent _ _); [|done]. injection H1 as <- <-.
  apply bind_inr in Hrun as (w2 & rows & (db' & _ & ->)%sock_execute_inr & Hrun).
  apply bind_inr in Hrun as (w3 & l & Hloop & [= <- _]).
  by apply (scan_rows_inr (λ _, True)) in Hloop as [-> _].
Qed.

(** The names in the query directory after the provisioning. *)
Lemma provisioned_listdir (ids : list Z) fs fs' :
  (∀ k, fs' !! k =
        if decide (k `prefix_of` rdir) then Some Dir
        else if decide (rdir `prefix_of` k) then None
        else if decide (k ∈ (λ c : Z, qdir ++ [Py.str c]) <$> ids) then Some (File "")
        else if decide (k `prefix_of` qdir) then Some Dir
        else if decide (qdir `prefix_of` k) then None
        else fs !! k) →
  Fs.listdir qdir fs' = list_to_set (Py.str <$> ids).
Proof.
  intros Hl. apply set_eq. intros n.
  rewrite elem_of_listdir, elem_of_list_to_set, Hl.
  rewrite decide_False.
  2:{ intros Hk. destruct (decide (qdir ++ [n] = rdir)) as [E|Hne].
      - destruct (result_not_below_query self [n]). by rewrite E.
      - apply above_result in Hk as [Hk _]; [|done]. by apply prefix_snoc_not in Hk. }
  rewrite decide_False by apply result_not_below_query.
  rewrite (list_elem_of_fmap Py.str). split.
  - case_decide as Hm.
    + apply list_elem_of_fmap in Hm as (c & E%app_inv_head & Hc).
      injection E as ->. eauto.
    + rewrite decide_False by apply prefix_snoc_not.
      rewrite decide_True by by apply prefix_app_r. by intros [? [=]].
  - intros (c & -> & Hc). rewrite decide_True; [eauto|].
    apply list_elem_of_fmap. eauto.
Qed.

Lemma manifest_not_in_query_dir (n : string) : manifest_path self ≠ qdir ++ [n].
Proof.
  unfold manifest_path, xrd_query_dir, xrootd_run_dir, Fs.os_path_join.
  rewrite <-!app_assoc. intros E%app_inv_head. discriminate E.
Qed.


End pipeline_tree.

(** ** Two databases *)

Section two_databases.
Variables (self other : QservDataLoader).
Implicit Types (fs : Fs.t) (k : path) (w : world).

Hypothesis same_base : qserv_base_dir (config other) = qserv_base_dir (config self).
Hypothesis other_name : _dbName other ≠ _dbName self.

Lemma other_query_dir_apart k :
  xrd_query_dir other `prefix_of` k →
  ¬ k `prefix_of` xrd_result_dir self
  ∧ ¬ xrd_result_dir self `prefix_of` k
  ∧ ¬ k `prefix_of` xrd_query_dir self
  ∧ ¬ xrd_query_dir self `prefix_of` k.
Proof.
  unfold xrd_query_dir, xrd_result_dir, xrootd_run_dir, Fs.os_path_join.
  rewrite same_base, <-!app_assoc. cbn [app]. intros [s ->].
  rewrite <-!app_assoc. cbn [app].
  split; [|split; [|split]]; intros H%prefix_app_inv.
  - apply prefix_cons_inv_2, prefix_cons_inv_1 in H. done.
  - apply prefix_cons_inv_2, prefix_cons_inv_1 in H. done.
  - do 2 apply prefix_cons_inv_2 in H. apply prefix_cons_inv_1 in H. done.
  - do 2 apply prefix_cons_inv_2 in H. apply prefix_cons_inv_1 in H. done.
Qed.


End two_databases.

(** * The demo deployment: witnesses and counterexamples *)

Lemma demo_wf : Fs.wf Demo.fs0.
Proof. apply (bool_decide_unpack _). vm_compute. exact I. Qed.

Lemma demo_query_dirs_only : dirs_only Demo.fs0 (xrd_query_dir Demo.self).
Proof. apply dirs_only_check. vm_compute. reflexivity. Qed.

Lemma demo_result_dirs_only : dirs_only Demo.fs0 (xrd_result_dir Demo.self).
Proof. apply dirs_only_check. vm_compute. reflexivity. Qed.

(** The demo store keeps the contract of [CREATE TABLE ... LIKE]. *)
Lemma demo_create_like : create_like_contract Demo.mysql "qservTest" "Object".
Proof.
  intros st st' rows. cbn [execute Demo.mysql]. unfold Demo.mysql_execute.
  rewrite bool_decide_false by (intros E; vm_compute in E; discriminate).
  cbn [list_find]. rewrite decide_True by done. cbn [fmap option_fmap option_map].
  destruct (relation st "qservTest" "Object") as [t|]; [|done].
  destruct (relation st "qservTest" ("Object" +:+ "_1234567890")); [done|].
  intros [= <- _]. unfold relation, Demo.add_relation.
  rewrite lookup_insert_eq. cbn. by rewrite lookup_insert_eq.
Qed.

Lemma run_returns {A} (m : M A) (w : world) (a : A) :
  (m w).2 = inr a → m w = ((m w).1, inr a).
Proof. destruct (m w) as [w' r]. cbn. by intros ->. Qed.

(** The demo store keeps the contract of [SHOW TABLES]. *)
Lemma demo_show_tables : show_tables_contract Demo.mysql "qservTest".
Proof.
  intros st st' rows. cbn [execute Demo.mysql]. unfold Demo.mysql_execute.
  rewrite bool_decide_true by done. intros [= <- <-]. split; [done|]. split.
  - apply Forall_fmap, Forall_forall. done.
  - intros name. rewrite list_elem_of_fmap. split.
    + intros (n & [= <-] & [Hl Hn]%list_elem_of_filter). split; [|done].
      unfold Demo.relation_names in Hn. apply elem_of_elements, elem_of_dom in Hn.
      unfold relation. destruct (st !! "qservTest"); cbn in *; [done|].
      by rewrite lookup_empty in Hn; destruct Hn.
    + intros [Hrel Hl]. exists name. split; [done|].
      apply list_elem_of_filter. split; [done|].
      unfold Demo.relation_names. apply elem_of_elements, elem_of_dom.
      unfold relation in Hrel. destruct (st !! "qservTest"); cbn in *; [done|].
      by destruct Hrel.
Qed.

Lemma demo_open_manifest :
  Fs.open_w Demo.empty_chunks_filename Demo.fs0
  = inr (<[Demo.empty_chunks_filename := File ""]> Demo.fs0).
Proof. reflexivity. Qed.

Lemma demo_manifest_run stripes S :
  masterCreateEmptyChunksFile Demo.self stripes S Demo.empty_chunks_filename Demo.w0
  = (World (<[Demo.empty_chunks_filename := File (manifest_text (empty_chunks_list S))]>
              Demo.fs0) ∅ [], inr tt).
Proof.
  rewrite manifest_run. change (w_fs Demo.w0) with Demo.fs0.
  by rewrite demo_open_manifest.
Qed.

(** C1 fails as stated: with 10 chunks and the non-empty chunks 2, 5 and 7
    the manifest is not 0, 1, 3, 4, 6, 8, 9; it goes on with 10. *)
Lemma manifest_counterexample :
  ∃ w' text,
    masterCreateEmptyChunksFile Demo.self "10" [2; 5; 7]
      Demo.empty_chunks_filename Demo.w0 = (w', inr tt)
    ∧ w_fs w' !! Demo.empty_chunks_filename = Some (File text)
    ∧ text ≠ manifest_text [0; 1; 3; 4; 6; 8; 9]
    ∧ Py.starts_with (manifest_text [0; 1; 3; 4; 6; 8; 9; 10]) text = true.
Proof.
  pose proof (demo_manifest_run "10" [2; 5; 7]) as Hrun.
  assert (Py.starts_with (manifest_text [0; 1; 3; 4; 6; 8; 9; 10])
            (manifest_text (empty_chunks_list [2; 5; 7])) = true) as Hs.
  { vm_compute. reflexivity. }
  assert (manifest_text (empty_chunks_list [2; 5; 7])
            ≠ manifest_text [0; 1; 3; 4; 6; 8; 9]) as Hne.
  { intros E.
    apply (f_equal (Py.starts_with (manifest_text [0; 1; 3; 4; 6; 8; 9; 10]))) in E.
    vm_compute in E. discriminate. }
  revert Hrun Hs Hne. generalize (manifest_text (empty_chunks_list [2; 5; 7])).
  intros text Hrun Hs Hne. eexists _, text. split; [exact Hrun|].
  split; [cbn [w_fs]; apply lookup_insert_eq|]. split; [exact Hne|exact Hs].
Qed.

(** C2 fails as stated: with the ids 15 and 1234567890 in the list (the
    second is outside [0, 7201), and both are outside a domain of 10
    chunks) no error is reported and a manifest is written. *)
Lemma manifest_no_error_counterexample :
  ∃ w' text,
    masterCreateEmptyChunksFile Demo.self "10" [15; 1234567890]
      Demo.empty_chunks_filename Demo.w0 = (w', inr tt)
    ∧ w_fs w' !! Demo.empty_chunks_filename = Some (File text)
    ∧ Py.starts_with (manifest_text [0; 1; 2]) text = true.
Proof.
  pose proof (demo_manifest_run "10" [15; 1234567890]) as Hrun.
  assert (Py.starts_with (manifest_text [0; 1; 2])
            (manifest_text (empty_chunks_list [15; 1234567890])) = true) as Hs.
  { vm_compute. reflexivity. }
  revert Hrun Hs. generalize (manifest_text (empty_chunks_list [15; 1234567890])).
  intros text Hrun Hs. eexists _, text. split; [exact Hrun|].
  split; [cbn [w_fs]; apply lookup_insert_eq|exact Hs].
Qed.

(** C3 fails as stated: the script for table [Object] and chunk 3 creates
    the table without dropping or replacing one that is there. *)
Lemma meta_table_counterexample :
  ∃ w' sql,
    masterCreateAndFeedMetaTable Demo.self "Object" [3] Demo.w0 = (w', inr tt)
    ∧ w_trace w' = [EvSql sql]
    ∧ Py.starts_with "USE qservMeta;CREATE TABLE LSST__Object (objectId BIGINT" sql = true
    ∧ Py.contains "DROP" sql = false
    ∧ Py.contains "REPLACE" sql = false
    ∧ Py.contains "IF NOT EXISTS" sql = false.
Proof. eexists _, _. repeat split; vm_compute; reflexivity. Qed.


(** C5 fails as stated: the chunk relation [Object_5] exists and holds no
    row, and the registry reports chunk 5. *)
Lemma registry_empty_relation_counterexample :
  show_tables_contract Demo.mysql "qservTest"
  ∧ relation Demo.st_empty_chunk "qservTest" "Object_5" = Some []
  ∧ ∃ w',
      workerGetNonEmptyChunkIds Demo.self (World Demo.fs0 Demo.st_empty_chunk [])
        = (w', inr [5]).
Proof.
  split; [apply demo_show_tables|]. split; [reflexivity|].
  eexists. vm_compute. reflexivity.
Qed.

Lemma manifest_is_complement_witness :
  Fs.open_w Demo.empty_chunks_filename (w_fs Demo.w0)
    = inr (<[Demo.empty_chunks_filename := File ""]> Demo.fs0)
  ∧ ∃ manifest,
      masterCreateEmptyChunksFile Demo.self "85" [3; 9]
        Demo.empty_chunks_filename Demo.w0
        = (World (<[Demo.empty_chunks_filename := File (manifest_text manifest)]>
                    (w_fs Demo.w0)) (w_db Demo.w0) (w_trace Demo.w0), inr tt)
      ∧ StronglySorted Z.lt manifest
      ∧ ∀ i, i ∈ manifest ↔ 0 ≤ i < 7201 ∧ i ∉ [3; 9].
Proof.
  split; [exact demo_open_manifest|].
  destruct (manifest_is_complement Demo.self "85" [3; 9]
              Demo.empty_chunks_filename Demo.w0 _ demo_open_manifest)
    as (manifest & Hrun & Hsorted & Hel & _).
  exists manifest. split; [exact Hrun|]. split; [exact Hsorted|exact Hel].
Defined.

Lemma meta_table_script_witness :
  no_percent "qservTest" = true ∧ no_percent "Object" = true
  ∧ ∃ db' (r : string + list (list string)),
      masterCreateAndFeedMetaTable Demo.self "Object" [3; 9] Demo.w0
      = (World (w_fs Demo.w0) db'
           (w_trace Demo.w0 ++ [EvSql (meta_script "qservTest" "Object" [3; 9])]),
         match r with inr _ => inr tt | inl msg => inl (SQLError msg) end).
Proof.
  split; [reflexivity|]. split; [reflexivity|].
  destruct (meta_table_script Demo.self "Object" [3; 9] Demo.w0 eq_refl eq_refl)
    as (db' & r & _ & Hrun & _).
  exists db', r. exact Hrun.
Defined.

Lemma demo_show_loaded :
  execute Demo.mysql (show_tables_statement "qservTest") Demo.st_loaded
  = (Demo.st_loaded, inr [["Object_3"]; ["Object_9"]]).
Proof. reflexivity. Qed.


Lemma registry_by_existence_witness :
  show_tables_contract Demo.mysql "qservTest"
  ∧ ∃ ids,
      workerGetNonEmptyChunkIds Demo.self (World Demo.fs0 Demo.st_loaded [])
        = (World Demo.fs0 Demo.st_loaded
             [EvSql (show_tables_statement "qservTest")], inr ids)
      ∧ ∀ c, c ∈ ids ↔
          ∃ name digits,
            is_Some (relation Demo.st_loaded "qservTest" name)
            ∧ chunk_table_match name = Some digits ∧ Py.int digits = Some c.
Proof.
  split; [exact demo_show_tables|].
  destruct (registry_by_existence Demo.self (World Demo.fs0 Demo.st_loaded [])
              _ _ demo_show_tables demo_show_loaded) as (ids & Hrun & Hids & _).
  exists ids. split; [exact Hrun|exact Hids].
Defined.



Lemma demo_export_dirs_run :
  workerCreateXrootdExportDirs Demo.self [3; 9] Demo.w0
  = ((workerCreateXrootdExportDirs Demo.self [3; 9] Demo.w0).1, inr tt).
Proof. apply run_returns. vm_compute. reflexivity. Qed.



Lemma partitioner_failure_stops_witness :
  Demo.spawn_with 2
    (partition_command Demo.self "Object" Demo.object_entry "Object.txt")
    (<[partition_dirname Demo.self "Object" := Dir]> Demo.fs0)
    (Demo.add_relation "qservTest" "Object" [] ∅)
  = (<[partition_dirname Demo.self "Object" := Dir]> Demo.fs0,
     Demo.add_relation "qservTest" "Object" [] ∅,
     (2, "", "partition.py: cannot read input"))
  ∧ 2 ≠ 0
  ∧ loadPartitionedTable Demo.failing_host Demo.self "Object" "schema.sql"
      "Object.txt" Demo.w0
    = (World (<[partition_dirname Demo.self "Object" := Dir]> Demo.fs0)
         (Demo.add_relation "qservTest" "Object" [] ∅)
         (w_trace Demo.w0
          ++ [EvSqlFile "schema.sql";
              EvRun (partition_command Demo.self "Object" Demo.object_entry
                       "Object.txt") 2]),
       inl (SubprocessFailure 2 "partition.py: cannot read input")).
Proof.
  assert (Demo.spawn_with 2
            (partition_command Demo.self "Object" Demo.object_entry "Object.txt")
            (<[partition_dirname Demo.self "Object" := Dir]> Demo.fs0)
            (Demo.add_relation "qservTest" "Object" [] ∅)
          = (<[partition_dirname Demo.self "Object" := Dir]> Demo.fs0,
             Demo.add_relation "qservTest" "Object" [] ∅,
             (2, "", "partition.py: cannot read input"))) as Hspawn
    by reflexivity.
  assert (2 ≠ 0) as Hcode by lia.
  split; [exact Hspawn|]. split; [exact Hcode|].
  destruct (partitioner_failure_stops Demo.failing_host Demo.self "Object"
              "schema.sql" "Object.txt" Demo.w0 Demo.data_config
              Demo.object_entry (Demo.add_relation "qservTest" "Object" [] ∅)
              Demo.fs0 (<[partition_dirname Demo.self "Object" := Dir]> Demo.fs0)
              _ _ 2 "" "partition.py: cannot read input"
              eq_refl eq_refl eq_refl eq_refl eq_refl Hspawn Hcode)
    as (trace' & -> & Hrun & _).
  exact Hrun.
Defined.


(** * The demo deployment: witnesses of the further properties *)

Lemma demo_init_run :
  initDatabases Demo.self Demo.w0
  = ((initDatabases Demo.self Demo.w0).1, inr tt).
Proof. apply run_returns. vm_compute. reflexivity. Qed.

Lemma init_databases_statements_witness :
  ∃ w', initDatabases Demo.self Demo.w0 = (w', inr tt)
    ∧ w_fs w' = w_fs Demo.w0
    ∧ w_trace w' = w_trace Demo.w0 ++ (EvSql <$> init_statements "qservTest").
Proof.
  destruct (init_databases_statements Demo.self Demo.w0 _ _ demo_init_run)
    as (Hfs & n & _ & Htr & Hn & _).
  eexists. split; [exact demo_init_run|]. split; [exact Hfs|].
  rewrite (Hn eq_refl) in Htr. exact Htr.
Defined.

Lemma demo_registry_run :
  workerGetNonEmptyChunkIds Demo.self (World Demo.fs0 Demo.st_loaded [])
  = (World Demo.fs0 Demo.st_loaded [EvSql (show_tables_statement "qservTest")],
     inr [3; 9]).
Proof. vm_compute. reflexivity. Qed.

Lemma registry_ids_natural_witness :
  workerGetNonEmptyChunkIds Demo.self (World Demo.fs0 Demo.st_loaded [])
    = (World Demo.fs0 Demo.st_loaded [EvSql (show_tables_statement "qservTest")],
       inr [3; 9])
  ∧ Forall (λ c, 0 ≤ c ∧ Py.int (Py.str c) = Some c) [3; 9].
Proof.
  split; [exact demo_registry_run|].
  exact (proj2 (proj2 (registry_ids_natural Demo.self _ _ _ demo_registry_run))).
Defined.

Lemma demo_show_reversed :
  execute Scenario.mysql_reversed (show_tables_statement "qservTest") Demo.st_loaded
  = (Demo.st_loaded, inr [["Object_9"]; ["Object_3"]]).
Proof. reflexivity. Qed.

Lemma demo_rows_nonempty :
  Forall (λ row : list string, row ≠ []) [["Object_3"]; ["Object_9"]].
Proof. by repeat constructor. Qed.

Lemma demo_rows_permuted :
  [["Object_3"]; ["Object_9"]] ≡ₚ ([["Object_9"]; ["Object_3"]] : list (list string)).
Proof. apply perm_swap. Qed.


Lemma demo_show_mixed :
  execute Demo.mysql (show_tables_statement "qservTest") Scenario.st_mixed
  = (Scenario.st_mixed,
     inr ((λ tc : string * Z, [tc.1 +:+ "_" +:+ Py.str tc.2])
          <$> [("Object", 3); ("Object_v2", 5)])).
Proof. reflexivity. Qed.

Lemma demo_listed_natural :
  Forall (λ tc : string * Z, 0 ≤ tc.2) [("Object", 3); ("Object_v2", 5)].
Proof. repeat constructor; simpl; lia. Qed.

Lemma registry_reads_object_only_witness :
  execute Demo.mysql (show_tables_statement "qservTest") Scenario.st_mixed
    = (Scenario.st_mixed,
       inr ((λ tc : string * Z, [tc.1 +:+ "_" +:+ Py.str tc.2])
            <$> [("Object", 3); ("Object_v2", 5)]))
  ∧ workerGetNonEmptyChunkIds Demo.self (World Demo.fs0 Scenario.st_mixed [])
    = (World Demo.fs0 Scenario.st_mixed
         [EvSql (show_tables_statement "qservTest")],
       inr (Py.sorted
              (snd <$> filter (λ tc : string * Z, tc.1 = "Object")
                         [("Object", 3); ("Object_v2", 5)]))).
Proof.
  split; [exact demo_show_mixed|].
  exact (registry_reads_object_only Demo.self (World Demo.fs0 Scenario.st_mixed [])
           _ _ demo_show_mixed demo_listed_natural).
Defined.

Lemma manifest_last_run_wins_witness :
  ∃ w1,
    masterCreateEmptyChunksFile Demo.self "85" [3; 9]
      Demo.empty_chunks_filename Demo.w0 = (w1, inr tt)
    ∧ masterCreateEmptyChunksFile Demo.self "85" [7] Demo.empty_chunks_filename w1
      = masterCreateEmptyChunksFile Demo.self "85" [7]
          Demo.empty_chunks_filename Demo.w0.
Proof.
  eexists. split; [exact (demo_manifest_run "85" [3; 9])|].
  exact (proj1 (proj2 (manifest_last_run_wins Demo.self "85" [3; 9] "85" [7]
                         Demo.empty_chunks_filename Demo.w0 _
                         (demo_manifest_run "85" [3; 9])))).
Defined.

Lemma demo_same_ids : ∀ c : Z, c ∈ [3; 9] ↔ c ∈ [9; 3; 3].
Proof. intros c. rewrite !elem_of_cons, !elem_of_nil. tauto. Qed.

Lemma export_dirs_same_ids_witness :
  Fs.wf (w_fs Demo.w0)
  ∧ (∀ c : Z, c ∈ [3; 9] ↔ c ∈ [9; 3; 3])
  ∧ ∃ w', workerCreateXrootdExportDirs Demo.self [3; 9] Demo.w0 = (w', inr tt)
      ∧ workerCreateXrootdExportDirs Demo.self [9; 3; 3] Demo.w0 = (w', inr tt).
Proof.
  split; [exact demo_wf|]. split; [exact demo_same_ids|].
  eexists. split; [exact demo_export_dirs_run|].
  exact (export_dirs_same_ids Demo.self [3; 9] [9; 3; 3] Demo.w0 _
           demo_wf demo_same_ids demo_export_dirs_run).
Defined.

Lemma export_dirs_last_call_wins_witness :
  Fs.wf (w_fs Demo.w0)
  ∧ ∃ w1, workerCreateXrootdExportDirs Demo.self [3; 9] Demo.w0 = (w1, inr tt)
      ∧ ∃ w2, workerCreateXrootdExportDirs Demo.self [7] w1 = (w2, inr tt)
          ∧ workerCreateXrootdExportDirs Demo.self [7] Demo.w0 = (w2, inr tt).
Proof.
  split; [exact demo_wf|].
  eexists. split; [exact demo_export_dirs_run|].
  exact (proj1 (export_dirs_last_call_wins Demo.self [3; 9] [7] Demo.w0 _
                  demo_wf demo_export_dirs_run)).
Defined.

Lemma blocked_wf : Fs.wf Scenario.fs_blocked.
Proof. apply (bool_decide_unpack _). vm_compute. exact I. Qed.

Lemma blocked_query_dirs_only :
  dirs_only Scenario.fs_blocked (xrd_query_dir Demo.self).
Proof. apply dirs_only_check. vm_compute. reflexivity. Qed.

Lemma blocked_result_file :
  Scenario.fs_blocked !! xrd_result_dir Demo.self = Some (File "stale").
Proof. vm_compute. reflexivity. Qed.


Lemma demo_object_entry :
  Demo.data_config !! "Object" = Some (TableConfig Demo.object_entry).
Proof. reflexivity. Qed.

Lemma demo_partition_dirs_only :
  dirs_only Demo.fs0 (partition_dirname Demo.self "Object").
Proof. apply dirs_only_check. vm_compute. reflexivity. Qed.


Lemma demo_no_entry :
  ∀ entry, Demo.data_config !! "RefObject" ≠ Some (TableConfig entry).
Proof. intros entry. change (Demo.data_config !! "RefObject") with (@None config_value). done. Qed.

Lemma demo_refobject_dirs_only :
  dirs_only Demo.fs0 (partition_dirname Demo.self "RefObject").
Proof. apply dirs_only_check. vm_compute. reflexivity. Qed.


Lemma demo_pipeline_run :
  loadPartitionedTable Demo.host Demo.self "Object" "schema.sql" "Object.txt"
    Demo.w0
  = ((loadPartitionedTable Demo.host Demo.self "Object" "schema.sql"
        "Object.txt" Demo.w0).1, inr tt).
Proof. apply run_returns. vm_compute. reflexivity. Qed.


Lemma closed_stdin_fails_last_witness :
  ∃ w',
    loadPartitionedTable Demo.host Demo.self "Object" "schema.sql" "Object.txt"
      Demo.w0 = (w', inr tt)
    ∧ loadPartitionedTable Scenario.closed_host Demo.self "Object" "schema.sql"
        "Object.txt" Demo.w0 = (w', inl EOFError).
Proof.
  eexists. split; [exact demo_pipeline_run|].
  exact (proj1 (closed_stdin_fails_last Demo.self (Demo.spawn_with 0) ""
                  "Object" "schema.sql" "Object.txt" Demo.w0 _ demo_pipeline_run)).
Defined.

Lemma unknown_table_runs_nothing_witness :
  "RefObject" ≠ "Object" ∧ "RefObject" ≠ "Source"
  ∧ ∃ w' e,
      loadPartitionedTable Demo.host Demo.self "RefObject" "schema.sql"
        "RefObject.txt" Demo.w0 = (w', inl e)
      ∧ (w_trace w' = w_trace Demo.w0
         ∨ w_trace w' = w_trace Demo.w0 ++ [EvSqlFile "schema.sql"]).
Proof.
  assert ("RefObject" ≠ "Object") as H1 by discriminate.
  assert ("RefObject" ≠ "Source") as H2 by discriminate.
  split; [exact H1|]. split; [exact H2|].
  destruct (loadPartitionedTable Demo.host Demo.self "RefObject" "schema.sql"
              "RefObject.txt" Demo.w0) as [w' r] eqn:Hrun.
  destruct (unknown_table_runs_nothing Demo.self Demo.host "RefObject"
              "schema.sql" "RefObject.txt" Demo.w0 w' r H1 H2 Hrun)
    as [[e ->] Htrace].
  exists w', e. split; [reflexivity|exact Htrace].
Defined.

Lemma demo_keeps_tree : keeps_tree Demo.host.
Proof.
  intros cmd fs st Hwf. cbn [spawn Demo.host]. unfold Demo.spawn_with.
  by case_bool_decide.
Qed.


Lemma two_databases_wf : Fs.wf Scenario.fs_two_databases.
Proof. apply (bool_decide_unpack _). vm_compute. exact I. Qed.

Lemma two_databases_run :
  workerCreateXrootdExportDirs Demo.self [3; 9]
    (World Scenario.fs_two_databases ∅ [])
  = ((workerCreateXrootdExportDirs Demo.self [3; 9]
        (World Scenario.fs_two_databases ∅ [])).1, inr tt).
Proof. apply run_returns. vm_compute. reflexivity. Qed.

Lemma two_databases_names : _dbName Scenario.other ≠ _dbName Demo.self.
Proof. discriminate. Qed.

